(** * Safehaven: the safety prediction engine and the route scoring controller

    A shallow embedding of
      - [services/SafetyMLService.js]  (the model service: prediction cache,
        training scheduler, training pass, hotspot clustering), and
      - [server/controllers/SafetyController.js] (route scoring, report
        submission, location validation),
    followed by the properties of the specification that concern them.

    Conventions of the embedding.
      - A JavaScript number is an exact rational ([Q]); rounding of doubles
        is not modelled.  [NaN] appears only where the controller produces
        it, as a constructor of [jsval].
      - What the JavaScript runtime provides ([Math.sin], [Date#getHours],
        number formatting) is the interface [Runtime]; the TensorFlow model
        is the interface [Regressor]; the Mongoose model [SafetyReport] is
        the interface [ReportStore].
      - A call that may throw (or a promise that may reject) has type
        [outcome A]; [try]/[catch] is a match on it.
      - An [async] method is run without interleaving: what it reads from
        the clock, the random source and the store while it runs is its
        [World] argument. *)

From Stdlib Require Import QArith Qminmax Qround Qabs ZArith List Ascii String Lia Lqa.
From stdpp Require Import gmap strings list.

Local Open Scope Q_scope.

(** ** Exceptions *)

Inductive outcome (A : Type) : Type :=
| Returned (a : A)
| Thrown (msg : string).
Arguments Returned {A} a.
Arguments Thrown {A} msg.

Definition obind {A B : Type} (o : outcome A) (k : A -> outcome B) : outcome B :=
  match o with
  | Returned a => k a
  | Thrown e => Thrown e
  end.

Notation "'let*' x ':=' e 'in' k" := (obind e (fun x => k))
  (at level 10, x name, e at level 100, k at level 200).

(** ** Numbers *)

Definition Qltb (x y : Q) : bool := negb (Qle_bool y x).
Definition Qleb (x y : Q) : bool := Qle_bool x y.

Definition ofZ (z : Z) : Q := inject_Z z.
Definition ofNat (n : nat) : Q := inject_Z (Z.of_nat n).

(** [Array.prototype.reduce((sum, x) => sum + f x, 0)]. *)
Definition sumBy {A : Type} (f : A -> Q) (l : list A) : Q :=
  fold_left (fun sum x => sum + f x) l 0.

(** [x.toFixed(f)]: the decimal string with [f] fraction digits.  The string
    is determined by its sign and by the integer [n] closest to
    [|x| * 10^f] (the larger one on a tie), which is how it is represented. *)
Definition toFixed (f : nat) (x : Q) : bool * Z :=
  (Qltb x 0, Qfloor (Qabs x * ofZ (10 ^ Z.of_nat f) + (1 # 2))).

(** A template string [`${a.toFixed(f)},${b.toFixed(f)}`]. *)
Definition coordKey : Type := ((bool * Z) * (bool * Z))%type.

Definition keyOf (f : nat) (lat lng : Q) : coordKey := (toFixed f lat, toFixed f lng).

(** ** The collaborators *)

Class Runtime := {
  Math_sin : Q -> Q;
  Math_cos : Q -> Q;
  Math_sqrt : Q -> Q;
  Math_atan2 : Q -> Q -> Q;
  Math_PI : Q;
  (** [new Date(t).getHours()] and [.getDay()], in the server's time zone *)
  getHours : Z -> Z;
  getDay : Z -> Z;
  (** [String(x)] of a number, and the value of a numeric string *)
  numberToString : Q -> string;
  parseNumericLiteral : string -> option Q
}.

(** A stored safety report: [location.coordinates = [lng, lat]], [type],
    [severity], [timestamp] (milliseconds since the epoch). *)
Record Report := {
  r_lat : Q;
  r_lng : Q;
  r_type : string;
  r_severity : Q;
  r_timestamp : Z
}.

(** The Mongoose model [SafetyReport], as the two services use it. *)
Class ReportStore := {
  Store : Type;
  (** [SafetyReport.findNearby(lat, lng, radiusKm)]; [None] is a null result *)
  findNearby : Store -> Q -> Q -> Q -> outcome (option (list Report));
  (** [SafetyReport.find().sort({timestamp: -1}).limit(n)] *)
  findRecent : Store -> N -> outcome (list Report)
}.

(** The TensorFlow model: inference on one feature vector and a fit on
    labelled samples, which updates the weights in place and returns the
    loss of every epoch. *)
Class Regressor := {
  Model : Type;
  createModel : Model;
  predict : Model -> list Q -> outcome Q;
  fit : Model -> list (list Q * Q) -> Model * outcome (list Q)
}.

(** ** SafetyMLService: geometry *)

Section Geometry.
Context `{Runtime}.

Definition calculateDistance (lat1 lon1 lat2 lon2 : Q) : Q :=
  let R := 6371 in
  let dLat := (lat2 - lat1) * (Math_PI / 180) in
  let dLon := (lon2 - lon1) * (Math_PI / 180) in
  let a :=
    Math_sin (dLat / 2) * Math_sin (dLat / 2) +
    Math_cos (lat1 * (Math_PI / 180)) * Math_cos (lat2 * (Math_PI / 180)) *
    Math_sin (dLon / 2) * Math_sin (dLon / 2) in
  let c := 2 * Math_atan2 (Math_sqrt a) (Math_sqrt (1 - a)) in
  R * c.
End Geometry.

(** ** SafetyMLService: state *)

Record CacheEntry := {
  c_score : Q;
  c_confidence : Q;
  c_timestamp : Z
}.

Record Prediction := {
  score : Q;
  confidence : Q
}.

Inductive Category := safe | moderate | unsafe.

Record Hotspot := {
  h_lat : Q;
  h_lng : Q;
  safetyScore : Q;
  h_confidence : Q;
  category : Category;
  reportCount : nat
}.

Section Service.
Context `{Runtime} `{ReportStore} `{Regressor}.

Record Service := {
  model : option Model;
  isTraining : bool;
  lastTrainedAt : option Z;
  trainingQueue : list Z;
  predictionCache : gmap coordKey CacheEntry;
  modelLoss : option Q;
  predictedHotspots : list Hotspot;
  lastSampleSize : nat
}.

Definition cacheTTL : Z := 5 * 60 * 1000.

(** The state the constructor leaves, before [initModel] has run. *)
Definition newService : Service :=
  {| model := None; isTraining := false; lastTrainedAt := None;
     trainingQueue := []; predictionCache := ∅; modelLoss := None;
     predictedHotspots := []; lastSampleSize := 0 |}.

Definition setCache (c : gmap coordKey CacheEntry) (st : Service) : Service :=
  {| model := model st; isTraining := isTraining st;
     lastTrainedAt := lastTrainedAt st; trainingQueue := trainingQueue st;
     predictionCache := c; modelLoss := modelLoss st;
     predictedHotspots := predictedHotspots st;
     lastSampleSize := lastSampleSize st |}.

(** What one call of [predictSafety] observes of its environment. *)
Record World := {
  db : Store;
  now_check : Z;   (* Date.now() in the freshness test *)
  now_query : Z;   (* new Date() after findNearby has answered *)
  now_heur : Z;    (* new Date() in getHeuristicSafety *)
  random : Q;      (* Math.random() in getHeuristicSafety *)
  now_write : Z    (* Date.now() when the result is cached *)
}.

Definition isUnsafeKind (t : string) : bool :=
  bool_decide (t ∈ ["unsafe"; "incident"; "suspicious"]%string).

Definition isIncidentKind (t : string) : bool :=
  bool_decide (t ∈ ["unsafe"; "incident"]%string).

Definition msPerDay : Q := 1000 * 60 * 60 * 24.

Definition nightHour (hour : Z) : bool := (22 <=? hour)%Z || (hour <=? 5)%Z.

Definition getHeuristicSafety (w : World) (lat lng : Q) : Q :=
  let hour := getHours (now_heur w) in
  let baseScore :=
    if nightHour hour then 5 # 10
    else if (18 <=? hour)%Z && (hour <? 22)%Z then 6 # 10
    else if (5 <? hour)%Z && (hour <? 8)%Z then 65 # 100
    else 7 # 10 in
  let latFactor := Math_sin (lat * 10) * (1 # 10) in
  let lngFactor := Math_cos (lng * 10) * (1 # 10) in
  let locationFactor := latFactor + lngFactor in
  let randomFactor := random w * (1 # 10) - (5 # 100) in
  Qmax (1 # 10) (Qmin (9 # 10) (baseScore + locationFactor + randomFactor)).

(** The body of the [try] block of [predictSafety]. *)
Definition predictSafety_try (m : Model) (w : World) (lat lng : Q)
  : outcome Prediction :=
  let* found := findNearby (db w) lat lng (5 # 10) in
  match found with
  | None => Thrown "TypeError: Cannot read properties of null (reading 'length')"
  | Some nearbyReports =>
    let now := now_query w in
    let hour := getHours now in
    let dayOfWeek := getDay now in
    let n := ofNat (length nearbyReports) in
    if (length nearbyReports =? 0)%nat then
      Returned {| score := getHeuristicSafety w lat lng; confidence := 5 # 10 |}
    else
      let avgSeverity := sumBy r_severity nearbyReports / n in
      let avgDaysSince :=
        sumBy (fun r => ofZ (now - r_timestamp r) / msPerDay) nearbyReports / n in
      let unsafeCount :=
        length (List.filter (fun r => isUnsafeKind (r_type r)) nearbyReports) in
      let unsafeRatio := ofNat unsafeCount / n in
      let input :=
        [ lat / 90; lng / 180; ofZ hour / 24; ofZ dayOfWeek / 7;
          Qmin 1 (n / 10); avgSeverity / 5; Qmin 1 (avgDaysSince / 30);
          unsafeRatio ] in
      let* safetyScore := predict m input in
      let safetyScore :=
        if nightHour hour then Qmax (1 # 10) (safetyScore - (1 # 10))
        else safetyScore in
      let recentReports :=
        List.filter (fun r => (now - r_timestamp r <? 24 * 60 * 60 * 1000)%Z)
                    nearbyReports in
      let recentUnsafeCount :=
        length (List.filter (fun r => isIncidentKind (r_type r)) recentReports) in
      let safetyScore :=
        if (0 <? length recentReports)%nat && (0 <? recentUnsafeCount)%nat
        then Qmax (1 # 10) (safetyScore - (5 # 100) * ofNat recentUnsafeCount)
        else safetyScore in
      let safetyScore := Qmax (1 # 10) (Qmin (9 # 10) safetyScore) in
      let reportCountFactor := Qmin 1 (n / 10) in
      let recencyFactor := Qmax (5 # 10) (1 - avgDaysSince / 30) in
      let confidence := reportCountFactor * (7 # 10) + recencyFactor * (3 # 10) in
      Returned {| score := safetyScore; confidence := confidence |}
  end.

Definition cachePut (key : coordKey) (p : Prediction) (t : Z) (st : Service)
  : Service :=
  setCache (<[key := {| c_score := score p; c_confidence := confidence p;
                        c_timestamp := t |}]> (predictionCache st)) st.

(** The cached prediction of [key], when there is one that is still fresh. *)
Definition freshEntry (st : Service) (w : World) (key : coordKey)
  : option CacheEntry :=
  match predictionCache st !! key with
  | Some cached =>
      if (now_check w - cacheTTL <? c_timestamp cached)%Z then Some cached else None
  | None => None
  end.

Definition predictSafety (st : Service) (w : World) (lat lng : Q)
  : outcome Prediction * Service :=
  match model st with
  | None =>
      let heuristicScore := getHeuristicSafety w lat lng in
      let cacheKey := keyOf 5 lat lng in
      let p := {| score := heuristicScore; confidence := 5 # 10 |} in
      (Returned p, cachePut cacheKey p (now_write w) st)
  | Some m =>
      let cacheKey := keyOf 5 lat lng in
      match freshEntry st w cacheKey with
      | Some cached =>
          (Returned {| score := c_score cached; confidence := c_confidence cached |},
           st)
      | None =>
          match predictSafety_try m w lat lng with
          | Returned p => (Returned p, cachePut cacheKey p (now_write w) st)
          | Thrown _ =>
              let heuristicScore := getHeuristicSafety w lat lng in
              let p := {| score := heuristicScore; confidence := 5 # 10 |} in
              (Returned p, cachePut cacheKey p (now_write w) st)
          end
      end
  end.

(** *** The training scheduler *)

Definition setSched (training : bool) (queue : list Z) (st : Service) : Service :=
  {| model := model st; isTraining := training;
     lastTrainedAt := lastTrainedAt st; trainingQueue := queue;
     predictionCache := predictionCache st; modelLoss := modelLoss st;
     predictedHotspots := predictedHotspots st;
     lastSampleSize := lastSampleSize st |}.

(** [processTrainingQueue] up to its first [await]: the guard, the latch
    and the drain.  The flag tells whether a training pass was started. *)
Definition processTrainingQueue_start (st : Service) : Service * bool :=
  if isTraining st || (length (trainingQueue st) =? 0)%nat then (st, false)
  else (setSched true [] st, true).

(** The [finally] block of [processTrainingQueue].  The flag tells whether
    [setTimeout(() => this.processTrainingQueue(), 1000)] was called. *)
Definition processTrainingQueue_finally (st : Service) : Service * bool :=
  let st' := setSched false (trainingQueue st) st in
  (st', (0 <? length (trainingQueue st'))%nat).

(** [scheduleTraining()], called when [Date.now()] reads [now].  The flag
    tells whether the call started a training pass. *)
Definition scheduleTraining (st : Service) (now : Z) : Service * bool :=
  if isTraining st then (st, false)
  else
    let st1 := setSched (isTraining st) (trainingQueue st ++ [now]) st in
    let '(st2, started) := processTrainingQueue_start st1 in
    (setCache ∅ st2, started).

(** [cleanupCache()], called when [Date.now()] reads [now]. *)
Definition cleanupCache (st : Service) (now : Z) : Service :=
  setCache
    (filter (fun kv => ¬ (c_timestamp (snd kv) < now - cacheTTL)%Z)
            (predictionCache st))
    st.

(** *** The training pass *)

Definition setSampleSize (n : nat) (st : Service) : Service :=
  {| model := model st; isTraining := isTraining st;
     lastTrainedAt := lastTrainedAt st; trainingQueue := trainingQueue st;
     predictionCache := predictionCache st; modelLoss := modelLoss st;
     predictedHotspots := predictedHotspots st;
     lastSampleSize := n |}.

Definition setModel (m : option Model) (st : Service) : Service :=
  {| model := m; isTraining := isTraining st;
     lastTrainedAt := lastTrainedAt st; trainingQueue := trainingQueue st;
     predictionCache := predictionCache st; modelLoss := modelLoss st;
     predictedHotspots := predictedHotspots st;
     lastSampleSize := lastSampleSize st |}.

Definition setTrained (t : Z) (loss : option Q) (st : Service) : Service :=
  {| model := model st; isTraining := isTraining st;
     lastTrainedAt := Some t; trainingQueue := trainingQueue st;
     predictionCache := predictionCache st; modelLoss := loss;
     predictedHotspots := predictedHotspots st;
     lastSampleSize := lastSampleSize st |}.

Definition setHotspots (hs : list Hotspot) (st : Service) : Service :=
  {| model := model st; isTraining := isTraining st;
     lastTrainedAt := lastTrainedAt st; trainingQueue := trainingQueue st;
     predictionCache := predictionCache st; modelLoss := modelLoss st;
     predictedHotspots := hs;
     lastSampleSize := lastSampleSize st |}.

(** What one call of [trainModel] observes of its environment. *)
Record TrainWorld := {
  t_db : Store;
  t_now : Z;            (* new Date() before the samples are built *)
  t_random : nat -> Q;  (* the successive Math.random() of shuffleArray *)
  t_done : Z            (* new Date() after the fit *)
}.

(** The features and the label [trainModel] computes for report [r]. *)
Definition trainingSample (reports : list Report) (now : Z) (r : Report)
  : list Q * Q :=
  let reportTime := r_timestamp r in
  let hourOfDay := getHours reportTime in
  let dayOfWeek := getDay reportTime in
  let daysSinceReport := ofZ (now - reportTime) / msPerDay in
  let nearbyReports :=
    List.filter
      (fun nr => Qleb (calculateDistance (r_lat r) (r_lng r) (r_lat nr) (r_lng nr))
                      (5 # 10))
      reports in
  let incidentCount := Qmin 10 (ofNat (length nearbyReports)) in
  let avgSeverity :=
    sumBy r_severity nearbyReports / Qmax 1 (ofNat (length nearbyReports)) in
  let unsafeCount :=
    length (List.filter (fun nr => isUnsafeKind (r_type nr)) nearbyReports) in
  let unsafeRatio := ofNat unsafeCount / Qmax 1 (ofNat (length nearbyReports)) in
  let safetyScore :=
    if isIncidentKind (r_type r)
    then Qmax (1 # 10) ((5 # 10) - r_severity r / 10 - unsafeRatio / 5)
    else if String.eqb (r_type r) "safe"
    then Qmin (9 # 10) ((5 # 10) + r_severity r / 10 - unsafeRatio / 5)
    else if String.eqb (r_type r) "suspicious"
    then Qmax (2 # 10) ((5 # 10) - r_severity r / 20 - unsafeRatio / 10)
    else 5 # 10 in
  let recencyFactor := Qmax (5 # 10) (1 - daysSinceReport / 30) in
  let safetyScore := safetyScore * recencyFactor in
  let safetyScore :=
    if nightHour hourOfDay then Qmax (1 # 10) (safetyScore - (1 # 10))
    else safetyScore in
  ([ r_lat r / 90; r_lng r / 180; ofZ hourOfDay / 24; ofZ dayOfWeek / 7;
     incidentCount / 10; avgSeverity / 5; Qmin 1 (daysSinceReport / 30);
     unsafeRatio ],
   safetyScore).

(** [[result[i], result[j]] = [result[j], result[i]]], both indices in range. *)
Definition swapAt {A : Type} (i j : nat) (result : list A) : list A :=
  match result !! i, result !! j with
  | Some a, Some b => <[j := a]> (<[i := b]> result)
  | _, _ => result
  end.

(** The loop of [shuffleArray], from index [i] down to 1; [k] counts the
    random numbers drawn so far. *)
Fixpoint shuffleLoop {A : Type} (rnd : nat -> Q) (k i : nat) (result : list A)
  : list A :=
  match i with
  | O => result
  | S i' =>
      let j := Z.to_nat (Qfloor (rnd k * ofNat (i + 1))) in
      shuffleLoop rnd (S k) i' (swapAt i j result)
  end.

Definition shuffleArray {A : Type} (rnd : nat -> Q) (array : list A) : list A :=
  shuffleLoop rnd 0 (length array - 1) array.

Definition trainModel (st : Service) (tw : TrainWorld) : Service :=
  match findRecent (t_db tw) 10000%N with
  | Thrown _ => st
  | Returned reports =>
      if (length reports <? 10)%nat then st
      else
        let st1 := setSampleSize (length reports) st in
        let now := t_now tw in
        let trainingData := map (trainingSample reports now) reports in
        let shuffled := shuffleArray (t_random tw) trainingData in
        match model st1 with
        | None => st1
        | Some m =>
            let '(m', history) := fit m shuffled in
            let st2 := setModel (Some m') st1 in
            match history with
            | Thrown _ => st2
            | Returned losses => setTrained (t_done tw) (last losses) st2
            end
        end
  end.

(** *** Hotspots *)

Definition categoryOf (s : Q) : Category :=
  if Qltb (7 # 10) s then safe else if Qltb s (4 # 10) then unsafe else moderate.

(** The reports of [reports] within [radius] km of [(lat, lng)]. *)
Definition within (radius : Q) (lat lng : Q) (reports : list Report) : list Report :=
  List.filter
    (fun r => Qleb (calculateDistance lat lng (r_lat r) (r_lng r)) radius)
    reports.

(** The [for (const report of reports)] loop of [identifyHotspots] over the
    reports still to visit.  [i] is the position of the next report;
    [worlds i] is what the [predictSafety] made for it observes. *)
Fixpoint hotspotLoop (reports rest : list Report) (worlds : nat -> World)
    (i : nat) (processedLocations : gset coordKey) (st : Service)
    (predictions : list Hotspot) : outcome (list Hotspot) * Service :=
  match rest with
  | [] => (Returned predictions, st)
  | report :: rest' =>
      let lat := r_lat report in
      let lng := r_lng report in
      let locationKey := keyOf 3 lat lng in
      if bool_decide (locationKey ∈ processedLocations)
      then hotspotLoop reports rest' worlds (S i) processedLocations st predictions
      else
        let processedLocations := {[locationKey]} ∪ processedLocations in
        let nearbyReports := within 2 lat lng reports in
        if (3 <=? length nearbyReports)%nat then
          match predictSafety st (worlds i) lat lng with
          | (Returned p, st') =>
              hotspotLoop reports rest' worlds (S i) processedLocations st'
                (predictions ++
                 [ {| h_lat := lat; h_lng := lng; safetyScore := score p;
                      h_confidence := confidence p;
                      category := categoryOf (score p);
                      reportCount := length nearbyReports |} ])
          | (Thrown e, st') => (Thrown e, st')
          end
        else hotspotLoop reports rest' worlds (S i) processedLocations st predictions
  end.

(** [Array.prototype.sort(compare)], which is stable: [before a b] says
    that [compare(a, b) <= 0]. *)
Fixpoint insertSorted {A : Type} (before : A -> A -> bool) (x : A) (l : list A)
  : list A :=
  match l with
  | [] => [x]
  | y :: l' => if before x y then x :: y :: l' else y :: insertSorted before x l'
  end.

Definition sortBy {A : Type} (before : A -> A -> bool) (l : list A) : list A :=
  foldr (insertSorted before) [] l.

(** [l.slice(-n)] *)
Definition sliceLast {A : Type} (n : nat) (l : list A) : list A :=
  drop (length l - n) l.

(** The loop that removes duplicates from [allHotspots]. *)
Fixpoint uniqueLoop (hotspots : list Hotspot) (seenKeys : gset coordKey)
    (uniqueHotspots : list Hotspot) : list Hotspot :=
  match hotspots with
  | [] => uniqueHotspots
  | hotspot :: rest =>
      let key := keyOf 5 (h_lat hotspot) (h_lng hotspot) in
      if bool_decide (key ∈ seenKeys) then uniqueLoop rest seenKeys uniqueHotspots
      else uniqueLoop rest ({[key]} ∪ seenKeys) (uniqueHotspots ++ [hotspot])
  end.

Definition selectHotspots (predictions : list Hotspot) : list Hotspot :=
  let sortedByScore :=
    sortBy (fun a b => Qleb (safetyScore b) (safetyScore a)) predictions in
  let safestLocations := take 5 sortedByScore in
  let unsafestLocations := reverse (sliceLast 5 sortedByScore) in
  let sortedByActivity :=
    sortBy (fun a b => (reportCount b <=? reportCount a)%nat) predictions in
  let mostActiveLocations := take 5 sortedByActivity in
  let allHotspots := safestLocations ++ unsafestLocations ++ mostActiveLocations in
  uniqueLoop allHotspots ∅ [].

(** What one call of [identifyHotspots] observes of its environment. *)
Record HotspotWorld := {
  hs_db : Store;
  hs_worlds : nat -> World
}.

(** The hotspot set one run of [identifyHotspots] computes: [None] when the
    run leaves without assigning [this.predictedHotspots] (too few reports,
    no model, or an exception). *)
Definition computeHotspots (st : Service) (hw : HotspotWorld)
  : option (list Hotspot) * Service :=
  match findRecent (hs_db hw) 500%N with
  | Thrown _ => (None, st)
  | Returned reports =>
      if (length reports <? 20)%nat || negb (bool_decide (is_Some (model st)))
      then (None, st)
      else
        match hotspotLoop reports reports (hs_worlds hw) 0 ∅ st [] with
        | (Returned predictions, st') => (Some (selectHotspots predictions), st')
        | (Thrown _, st') => (None, st')
        end
  end.

Definition identifyHotspots (st : Service) (hw : HotspotWorld) : Service :=
  match computeHotspots st hw with
  | (Some uniqueHotspots, st') => setHotspots uniqueHotspots st'
  | (None, st') => st'
  end.

(** The body of a training pass, between the latch and the [finally]
    block: [trainModel], [saveModel] (which touches the disk only, and
    whose failure is caught) and [identifyHotspots]. *)
Definition trainingPass (st : Service) (tw : TrainWorld) (hw : HotspotWorld)
  : Service :=
  identifyHotspots (trainModel st tw) hw.

(** *** Start-up *)

Record Metadata := {
  md_loss : option Q;
  md_lastTrainedAt : option Z;
  md_sampleSize : nat
}.

Definition setMetadata (md : Metadata) (st : Service) : Service :=
  {| model := model st; isTraining := isTraining st;
     lastTrainedAt := md_lastTrainedAt md; trainingQueue := trainingQueue st;
     predictionCache := predictionCache st; modelLoss := md_loss md;
     predictedHotspots := predictedHotspots st;
     lastSampleSize := md_sampleSize md |}.

(** [initModel()]: [disk] is what loading the saved model gives ([None]
    when there is no model file, with the metadata when they exist);
    any failure creates a new model and schedules a training. *)
Definition initModel (st : Service)
    (disk : outcome (option (Model * option Metadata))) (now : Z)
  : Service * bool :=
  match disk with
  | Returned (Some (m, Some md)) => (setMetadata md (setModel (Some m) st), false)
  | Returned (Some (m, None)) => (setModel (Some m) st, false)
  | Returned None => scheduleTraining (setModel (Some createModel) st) now
  | Thrown _ => scheduleTraining (setModel (Some createModel) st) now
  end.

(** *** The service in time

    The service together with what is in flight around it: the training
    passes that have passed the latch and not yet reached their [finally]
    block, and the timers armed by [setTimeout] that have not fired. *)
Record System := {
  svc : Service;
  activePasses : nat;
  pendingTimers : nat
}.

Inductive Event :=
| EvInit (disk : outcome (option (Model * option Metadata))) (now : Z)
| EvSchedule (now : Z)                             (* scheduleTraining() *)
| EvPredict (w : World) (lat lng : Q)              (* predictSafety(lat, lng) *)
| EvCleanup (now : Z)                              (* cleanupCache() *)
| EvPassEnds (tw : TrainWorld) (hw : HotspotWorld) (* a pass completes *)
| EvTimer.                                         (* an armed timer fires *)

Definition count (b : bool) : nat := if b then 1 else 0.

(** One event; [None] when the event cannot happen in this state. *)
Definition step (s : System) (e : Event) : option System :=
  match e with
  | EvInit disk now =>
      let '(st, started) := initModel (svc s) disk now in
      Some {| svc := st; activePasses := activePasses s + count started;
              pendingTimers := pendingTimers s |}
  | EvSchedule now =>
      let '(st, started) := scheduleTraining (svc s) now in
      Some {| svc := st; activePasses := activePasses s + count started;
              pendingTimers := pendingTimers s |}
  | EvPredict w lat lng =>
      Some {| svc := snd (predictSafety (svc s) w lat lng);
              activePasses := activePasses s; pendingTimers := pendingTimers s |}
  | EvCleanup now =>
      Some {| svc := cleanupCache (svc s) now;
              activePasses := activePasses s; pendingTimers := pendingTimers s |}
  | EvPassEnds tw hw =>
      match activePasses s with
      | O => None
      | S n =>
          let '(st, armed) :=
            processTrainingQueue_finally (trainingPass (svc s) tw hw) in
          Some {| svc := st; activePasses := n;
                  pendingTimers := pendingTimers s + count armed |}
      end
  | EvTimer =>
      match pendingTimers s with
      | O => None
      | S n =>
          let '(st, started) := processTrainingQueue_start (svc s) in
          Some {| svc := st; activePasses := activePasses s + count started;
                  pendingTimers := n |}
      end
  end.

Fixpoint run (s : System) (events : list Event) : option System :=
  match events with
  | [] => Some s
  | e :: rest =>
      match step s e with
      | Some s' => run s' rest
      | None => None
      end
  end.

Definition initialSystem : System :=
  {| svc := newService; activePasses := 0; pendingTimers := 0 |}.

End Service.

(** ** SafetyController *)

(** The values the route loop computes with: [totalScore] starts as a
    number and [+=] adds to it what [predictSafety] resolved to. *)
Inductive jsval :=
| VNum (x : Q)
| VNaN
| VStr (s : string)
| VObj (p : Prediction).

(** A coordinate read from the parsed [location]: a number, [null], or
    [undefined] when the property is missing.  Other JSON values are outside
    the model. *)
Inductive coord :=
| CUndefined
| CNull
| CNum (x : Q).

(** [JSON.parse(req.query.location)] followed by [const { lat, lng } = ...]. *)
Inductive parsedLocation :=
| ParseError (msg : string)        (* JSON.parse throws *)
| ParsedNull                       (* destructuring null throws *)
| ParsedObject (lat lng : coord).

Record Point := {
  p_lat : Q;
  p_lng : Q
}.

(** A route record, with the property names the controller gives it. *)
Record Route := {
  start : Point;
  end_ : Point;
  route_safetyScore : jsval;
  incidents : nat
}.

(** The report [submitReport] builds:
    [location.coordinates = [location.lng, location.lat]]. *)
Record NewReport := {
  nr_lng : coord;
  nr_lat : coord;
  nr_description : string;
  nr_type : option string;
  nr_severity : Q;
  nr_timestamp : Z
}.

Inductive body :=
| ErrorBody (error : string) (details : option string)
| RoutesBody (routes : list Route)
| ReportsBody (reports : option (list Report))
| SubmitBody (success : bool) (report : NewReport).

(** [res.status(code).json(body)]; [res.json(body)] has status 200. *)
Record Response := {
  status : nat;
  json : body
}.

(** What [submitReport] does to its collaborators, in order. *)
Inductive Effect :=
| Save (r : NewReport)
| Emit (event : string) (r : NewReport)
| ScheduleTraining.

Section Controller.
Context `{Runtime}.

(** [!x] *)
Definition falsy (c : coord) : bool :=
  match c with
  | CUndefined | CNull => true
  | CNum x => Qeq_bool x 0
  end.

(** The characters a numeric string may consist of: white space, digits,
    signs, the point, the exponent mark, [Infinity], and the prefixes and
    digits of the other radixes. *)
Definition numericChars : list ascii :=
  list_ascii_of_string "0123456789+-.eEInfinityxXoObBaAcCdDfF " ++
  [ascii_of_nat 9; ascii_of_nat 10; ascii_of_nat 11; ascii_of_nat 12; ascii_of_nat 13].

(** [Number(s)] *)
Definition stringToNumber (s : string) : jsval :=
  if forallb (fun c => bool_decide (c ∈ numericChars)) (list_ascii_of_string s)
  then match parseNumericLiteral s with
       | Some x => VNum x
       | None => VNaN
       end
  else VNaN.

Definition toPrimitive (v : jsval) : jsval :=
  match v with
  | VObj _ => VStr "[object Object]"
  | _ => v
  end.

Definition toString (v : jsval) : string :=
  match toPrimitive v with
  | VNum x => numberToString x
  | VNaN => "NaN"
  | VStr s => s
  | VObj _ => "[object Object]"
  end.

Definition toNumber (v : jsval) : jsval :=
  match toPrimitive v with
  | VNum x => VNum x
  | VStr s => stringToNumber s
  | _ => VNaN
  end.

(** [a + b] *)
Definition js_add (a b : jsval) : jsval :=
  match toPrimitive a, toPrimitive b with
  | VStr s, pb => VStr (s ++ toString pb)
  | pa, VStr s => VStr (toString pa ++ s)
  | pa, pb =>
      match toNumber pa, toNumber pb with
      | VNum x, VNum y => VNum (x + y)
      | _, _ => VNaN
      end
  end.

(** [a / n] for a non-zero number [n] (a quotient by zero is [NaN] here:
    the infinities are not modelled). *)
Definition js_div (a : jsval) (n : Q) : jsval :=
  match toNumber a with
  | VNum x => if Qeq_bool n 0 then VNaN else VNum (x / n)
  | _ => VNaN
  end.

(** The loop of [generateRoutePoints]; iteration [i] draws the random
    numbers [2 i] and [2 i + 1]. *)
Definition routePoint (rnd : nat -> Q) (lat lng : Q) (count : nat) (distanceKm : Q)
    (i : nat) : Point :=
  let earthRadius := 6371 in
  let variableDistance := distanceKm * ((7 # 10) + rnd (2 * i)%nat * (6 # 10)) in
  let angle :=
    (ofNat i * 2 * Math_PI) / ofNat count + (rnd (2 * i + 1)%nat * (2 # 10) - (1 # 10)) in
  let newLat :=
    lat + (variableDistance / earthRadius) * Math_cos angle * (180 / Math_PI) in
  let newLng :=
    lng + (variableDistance / earthRadius) * Math_sin angle * (180 / Math_PI)
          / Math_cos (lat * Math_PI / 180) in
  {| p_lat := newLat; p_lng := newLng |}.

Definition generateRoutePoints (rnd : nat -> Q) (lat lng : Q) (count : nat)
    (distanceKm : Q) : list Point :=
  map (routePoint rnd lat lng count distanceKm) (seq 0 count).

Definition midPoint (lat1 lng1 lat2 lng2 : Q) (count : nat) (i : nat) : Point :=
  let fraction := ofNat i / ofNat (count + 1) in
  let perpFactor := Math_sin (fraction * Math_PI) * (1 # 10000) in
  let dx := lat2 - lat1 in
  let dy := lng2 - lng1 in
  {| p_lat := lat1 + fraction * dx + perpFactor * dy;
     p_lng := lng1 + fraction * dy - perpFactor * dx |}.

Definition getMidPoints (lat1 lng1 lat2 lng2 : Q) (count : nat) : list Point :=
  map (midPoint lat1 lng1 lat2 lng2 count) (seq 1 count).

(** What one request to [getSafeRoutes] observes of its collaborators:
    the random numbers, and for midpoint [j] of leg [i] what
    [SafetyMLService.predictSafety] and [SafetyReport.findNearby] answer. *)
Record RouteWorld := {
  rw_random : nat -> Q;
  rw_predictSafety : nat -> nat -> Q -> Q -> outcome Prediction;
  rw_findNearby : nat -> nat -> Q -> Q -> Q -> outcome (option (list Report))
}.

Definition isUnsafeType (t : string) : bool :=
  bool_decide (t ∈ ["unsafe"; "incident"; "suspicious"]%string).

(** The inner loop: the midpoints still to visit, [j] the position of the
    next one. *)
Fixpoint scoreMidPoints (rw : RouteWorld) (i j : nat) (midPoints : list Point)
    (totalScore : jsval) (incidents : nat) : outcome (jsval * nat) :=
  match midPoints with
  | [] => Returned (totalScore, incidents)
  | midPoint :: rest =>
      let score :=
        match rw_predictSafety rw i j (p_lat midPoint) (p_lng midPoint) with
        | Returned p => VObj p
        | Thrown _ => VNum (5 # 10)
        end in
      let totalScore := js_add totalScore score in
      let* found := rw_findNearby rw i j (p_lat midPoint) (p_lng midPoint) (2 # 10) in
      let nearbyReports := default [] found in
      let unsafeReports :=
        List.filter (fun r => isUnsafeType (r_type r)) nearbyReports in
      scoreMidPoints rw i (S j) rest totalScore (incidents + length unsafeReports)
  end.

(** The outer loop: the route points still to visit, [i] the position of
    the next one. *)
Fixpoint scoreLegs (rw : RouteWorld) (lat lng : Q) (i : nat)
    (routePoints : list Point) (routes : list Route) : outcome (list Route) :=
  match routePoints with
  | [] => Returned routes
  | point :: rest =>
      let midPoints := getMidPoints lat lng (p_lat point) (p_lng point) 3 in
      let* r := scoreMidPoints rw i 0 midPoints (VNum 0) 0 in
      let safetyScore := js_div (fst r) (ofNat (length midPoints)) in
      scoreLegs rw lat lng (S i) rest
        (routes ++ [ {| start := {| p_lat := lat; p_lng := lng |};
                        end_ := point;
                        route_safetyScore := safetyScore;
                        incidents := snd r |} ])
  end.

Definition invalidLocation : Response :=
  {| status := 400; json := ErrorBody "Invalid location data" None |}.

Definition serverError (msg : string) : Response :=
  {| status := 500; json := ErrorBody "Server error" (Some msg) |}.

(** The [try] block of [getSafeRoutes]. *)
Definition getSafeRoutes_try (rw : RouteWorld) (location : parsedLocation)
  : outcome Response :=
  match location with
  | ParseError msg => Thrown msg
  | ParsedNull => Thrown "TypeError: Cannot destructure property 'lat' of 'locationData'"
  | ParsedObject lat lng =>
      if falsy lat || falsy lng then Returned invalidLocation
      else
        match lat, lng with
        | CNum lat, CNum lng =>
            let routePoints := generateRoutePoints (rw_random rw) lat lng 8 1 in
            let* routes := scoreLegs rw lat lng 0 routePoints [] in
            Returned {| status := 200; json := RoutesBody routes |}
        | _, _ => Returned invalidLocation
        end
  end.

Definition getSafeRoutes (rw : RouteWorld) (location : parsedLocation)
  : outcome Response :=
  match getSafeRoutes_try rw location with
  | Returned r => Returned r
  | Thrown msg => Returned (serverError msg)
  end.

(** [getReports]; [radius] is [parseFloat(req.query.radius)], [None] when
    it is [NaN]. *)
Definition getReports_try
    (nearby : Q -> Q -> Q -> outcome (option (list Report)))
    (location : parsedLocation) (radius : option Q) : outcome Response :=
  match location with
  | ParseError msg => Thrown msg
  | ParsedNull => Thrown "TypeError: Cannot destructure property 'lat' of 'locationData'"
  | ParsedObject lat lng =>
      let radius :=
        match radius with
        | Some r => if Qeq_bool r 0 then 1 else r
        | None => 1
        end in
      if falsy lat || falsy lng then Returned invalidLocation
      else
        match lat, lng with
        | CNum lat, CNum lng =>
            let* reports := nearby lat lng radius in
            Returned {| status := 200; json := ReportsBody reports |}
        | _, _ => Returned invalidLocation
        end
  end.

Definition getReports
    (nearby : Q -> Q -> Q -> outcome (option (list Report)))
    (location : parsedLocation) (radius : option Q) : outcome Response :=
  match getReports_try nearby location radius with
  | Returned r => Returned r
  | Thrown msg => Returned (serverError msg)
  end.

(** The body of a [POST /api/safety/report]: [location] is [None] when it
    is missing or null, and so are the other properties. *)
Record ReportInput := {
  in_location : option (coord * coord);   (* (location.lat, location.lng) *)
  in_description : option string;
  in_type : option string;
  in_severity : option Q
}.

(** What one request to [submitReport] observes of its collaborators. *)
Record SubmitWorld := {
  sw_now : Z;                                  (* new Date() *)
  sw_save : NewReport -> outcome NewReport;    (* await report.save() *)
  sw_getIO : outcome unit                      (* getIO() *)
}.

(** The [try] block of [submitReport], with the effects it has had when
    it returns or throws. *)
Definition submitReport_try (sw : SubmitWorld) (input : ReportInput)
  : list Effect * outcome Response :=
  match in_location input, in_description input with
  | Some (lat, lng), Some (String c description') =>
      let description := String c description' in
      let report :=
        {| nr_lng := lng; nr_lat := lat; nr_description := description;
           nr_type := in_type input;
           nr_severity :=
             match in_severity input with
             | Some s => if Qeq_bool s 0 then 3 else s
             | None => 3
             end;
           nr_timestamp := sw_now sw |} in
      match sw_save sw report with
      | Thrown msg => ([], Thrown msg)
      | Returned savedReport =>
          match sw_getIO sw with
          | Thrown msg => ([Save report], Thrown msg)
          | Returned _ =>
              ([Save report; Emit "safetyUpdate" savedReport; ScheduleTraining],
               Returned {| status := 201; json := SubmitBody true savedReport |})
          end
      end
  | _, _ =>
      ([], Returned {| status := 400; json := ErrorBody "Missing required fields" None |})
  end.

Definition submitReport (sw : SubmitWorld) (input : ReportInput)
  : list Effect * outcome Response :=
  match submitReport_try sw input with
  | (effects, Returned r) => (effects, Returned r)
  | (effects, Thrown msg) => (effects, Returned (serverError msg))
  end.

(** How often a request called [SafetyMLService.scheduleTraining()]. *)
Definition scheduleCalls (effects : list Effect) : nat :=
  length (List.filter (fun e => match e with ScheduleTraining => true | _ => false end)
                      effects).

End Controller.

(** ** SafetyMLService: status, nearby hotspots and persistence *)

#[global] Instance Category_eq_dec : EqDecision Category.
Proof. solve_decision. Defined.

(** What [getNearbyHotspots] answers. *)
Record NearbyHotspots := {
  nh_hotspots : list Hotspot;   (* hotspots *)
  totalCount : nat;
  safeCount : nat;
  unsafeCount : nat;
  moderateCount : nat
}.

(** [this.modelLoss ? this.modelLoss.toFixed(4) : 'Not trained yet'] *)
Inductive lossText :=
| NotTrainedYet
| LossDigits (digits : bool * Z).

(** What [getStatus] answers. *)
Record Status := {
  isReady : bool;
  status_isTraining : bool;
  status_lastTrainedAt : option Z;
  queueLength : nat;
  cacheSize : nat;
  status_modelLoss : lossText;
  modelMSE : lossText;
  sampleSize : nat;
  status_predictedHotspots : list Hotspot;
  trainingTimestamp : option Z
}.

Section ServiceQueries.
Context `{Runtime} `{ReportStore} `{Regressor}.

(** [h.category === c] *)
Definition hasCategory (c : Category) (h : Hotspot) : bool :=
  bool_decide (category h = c).

(** [getNearbyHotspots(lat, lng, radiusKm)]; [hw] is what the
    [identifyHotspots] it may call observes. *)
Definition getNearbyHotspots (st : Service) (hw : HotspotWorld)
    (lat lng radiusKm : Q) : NearbyHotspots * Service :=
  let st' :=
    if (length (predictedHotspots st) =? 0)%nat then identifyHotspots st hw else st in
  let nearbyHotspots :=
    List.filter
      (fun hotspot =>
         Qleb (calculateDistance lat lng (h_lat hotspot) (h_lng hotspot)) radiusKm)
      (predictedHotspots st') in
  ({| nh_hotspots := nearbyHotspots;
      totalCount := length nearbyHotspots;
      safeCount := length (List.filter (hasCategory safe) nearbyHotspots);
      unsafeCount := length (List.filter (hasCategory unsafe) nearbyHotspots);
      moderateCount := length (List.filter (hasCategory moderate) nearbyHotspots) |},
   st').

Definition lossTextOf (loss : option Q) : lossText :=
  match loss with
  | Some l => if Qeq_bool l 0 then NotTrainedYet else LossDigits (toFixed 4 l)
  | None => NotTrainedYet
  end.

(** [getStatus()]; [trainingTimestamp] is the instant its ISO string names. *)
Definition getStatus (st : Service) : Status :=
  {| isReady := bool_decide (is_Some (model st));
     status_isTraining := isTraining st;
     status_lastTrainedAt := lastTrainedAt st;
     queueLength := length (trainingQueue st);
     cacheSize := size (predictionCache st);
     status_modelLoss := lossTextOf (modelLoss st);
     modelMSE := lossTextOf (modelLoss st);
     sampleSize := lastSampleSize st;
     status_predictedHotspots := take 10 (predictedHotspots st);
     trainingTimestamp := lastTrainedAt st |}.

(** The directory [models/safety-model]: the saved model and
    [metadata.json], each present or not. *)
Record Disk := {
  d_model : option Model;
  d_metadata : option Metadata
}.

(** Which of the file operations of one [saveModel] succeed. *)
Record SaveWorld := {
  mkdir_ok : bool;
  save_ok : bool;
  writeFile_ok : bool;
  readdir_ok : bool
}.

(** [saveModel()]: the directory it leaves when it returns.  [modelLoss] is
    [None] for the [null] of the constructor.  When it throws, what is on
    the disk is not described. *)
Definition saveModel (st : Service) (d : Disk) (sw : SaveWorld) : outcome Disk :=
  if negb (mkdir_ok sw) then Thrown "mkdir failed"
  else
    match model st with
    | None => Thrown "TypeError: Cannot read properties of null (reading 'save')"
    | Some m =>
        if negb (save_ok sw) then Thrown "model.save failed"
        else
          let d1 := {| d_model := Some m; d_metadata := d_metadata d |} in
          let* d2 :=
            match modelLoss st with
            | Some loss =>
                if negb (writeFile_ok sw) then Thrown "writeFile failed"
                else
                  Returned
                    {| d_model := Some m;
                       d_metadata :=
                         Some {| md_loss := Some loss;
                                 md_lastTrainedAt := lastTrainedAt st;
                                 md_sampleSize := lastSampleSize st |} |}
            | None => Returned d1
            end in
          if negb (readdir_ok sw) then Thrown "readdir failed" else Returned d2
    end.

(** What [initModel] finds in the directory. *)
Definition loadDisk (d : Disk) : outcome (option (Model * option Metadata)) :=
  Returned match d_model d with
           | Some m => Some (m, d_metadata d)
           | None => None
           end.

End ServiceQueries.

(** ** The client: the nearest safe hotspot (ReportHandler.js) *)

Section Client.
Context `{Runtime}.




End Client.

(** ** The vocabulary of the properties *)

Section ControllerVocabulary.
Context `{Runtime}.

(** The store answers every query of the request. *)
Definition storeAnswers (rw : RouteWorld) : Prop :=
  forall i j lat lng radius, exists found,
    rw_findNearby rw i j lat lng radius = Returned found.

(** The store finds no report for any query of the request. *)
Definition storeFindsNothing (rw : RouteWorld) : Prop :=
  forall i j lat lng radius,
    rw_findNearby rw i j lat lng radius = Returned None \/
    rw_findNearby rw i j lat lng radius = Returned (Some []).

Definition storeRaises (rw : RouteWorld) : Prop :=
  forall i j lat lng radius, exists msg,
    rw_findNearby rw i j lat lng radius = Thrown msg.

Definition predictionsRejected (rw : RouteWorld) : Prop :=
  forall i j lat lng, exists msg, rw_predictSafety rw i j lat lng = Thrown msg.

Definition predictionsResolve (rw : RouteWorld) : Prop :=
  forall i j lat lng, exists p, rw_predictSafety rw i j lat lng = Returned p.

(** The route record the outer loop pushes for the leg to [pt]. *)
Definition legRecord (lat lng : Q) (pt : Point) (r : jsval * nat) : Route :=
  {| start := {| p_lat := lat; p_lng := lng |};
     end_ := pt;
     route_safetyScore :=
       js_div (fst r) (ofNat (length (getMidPoints lat lng (p_lat pt) (p_lng pt) 3)));
     incidents := snd r |}.

(** The string holds the text of an object. *)
Definition mentionsObject (s : string) : Prop :=
  In "["%char (list_ascii_of_string s).

Definition tainted (v : jsval) : Prop :=
  exists s, v = VStr s /\ mentionsObject s.

End ControllerVocabulary.

Section ServiceVocabulary.
Context `{Runtime} `{ReportStore} `{Regressor}.

(** A score and a confidence in their ranges. *)
Definition scoreInRange (p : Prediction) : Prop :=
  1 # 10 <= score p /\ score p <= 9 # 10.

Definition confidenceInRange (p : Prediction) : Prop :=
  0 <= confidence p /\ confidence p <= 1.

(** The prediction a cache entry stands for. *)
Definition cachedPrediction (e : CacheEntry) : Prediction :=
  {| score := c_score e; confidence := c_confidence e |}.

(** Every cached prediction has the property [P]. *)
Definition cacheHolds (P : Prediction -> Prop) (st : Service) : Prop :=
  forall key e, predictionCache st !! key = Some e -> P (cachedPrediction e).

(** No report the store finds near [(lat, lng)] is dated after the clock
    reading of the call. *)
Definition notPostdated (w : World) (lat lng : Q) : Prop :=
  forall reports,
    findNearby (db w) lat lng (5 # 10) = Returned (Some reports) ->
    Forall (fun r => (r_timestamp r <= now_query w)%Z) reports.

(** What the heuristic path answers. *)
Definition heuristicPrediction (w : World) (lat lng : Q) : Prediction :=
  {| score := getHeuristicSafety w lat lng; confidence := 5 # 10 |}.

(** The [try] block fails: the store raises or answers null, or the
    inference raises. *)
Definition internalFailure (m : Model) (w : World) (lat lng : Q) : Prop :=
  exists msg, predictSafety_try m w lat lng = Thrown msg.

(** What a call computes when it does not answer from the cache. *)
Definition recomputed (st : Service) (w : World) (lat lng : Q) : Prediction :=
  match model st with
  | None => heuristicPrediction w lat lng
  | Some m =>
      match predictSafety_try m w lat lng with
      | Returned p => p
      | Thrown _ => heuristicPrediction w lat lng
      end
  end.

(** What holds of the service and of what is in flight around it after any
    sequence of events. *)
Definition singleFlight (s : System) : Prop :=
  activePasses s = count (isTraining (svc s)) /\
  trainingQueue (svc s) = [] /\
  pendingTimers s = 0%nat.

(** The hotspot stands on the place of a fetched report, and counts the
    fetched reports within 2 km of it, of which there are at least 3. *)
Definition qualifies (reports : list Report) (h : Hotspot) : Prop :=
  reportCount h = length (within 2 (h_lat h) (h_lng h) reports) /\
  (3 <= reportCount h)%nat /\
  exists r, r ∈ reports /\ h_lat h = r_lat r /\ h_lng h = r_lng r.

(** No fetched report has 3 fetched reports within 2 km (itself included). *)
Definition sparse (reports : list Report) : Prop :=
  forall r, r ∈ reports ->
    (length (within 2 (r_lat r) (r_lng r) reports) < 3)%nat.

End ServiceVocabulary.

(** ** The vocabulary of the further properties *)

Section FurtherVocabulary.
Context `{Runtime} `{ReportStore} `{Regressor}.

(** Every [Math.random()] is in [0, 1). *)
Definition unitDraws (rnd : nat -> Q) : Prop :=
  forall k, 0 <= rnd k /\ rnd k < 1.

(** The sine and the cosine of the runtime stay in [-1, 1]. *)
Definition boundedTrig : Prop :=
  forall x, (-1 <= Math_sin x /\ Math_sin x <= 1) /\
            (-1 <= Math_cos x /\ Math_cos x <= 1).

(** What the haversine formula needs of the runtime: the sine is odd, the
    functions give equal results on equal rationals, and the arc tangent of
    0 over the square root of 1 is 0. *)
Definition haversineLaws : Prop :=
  (forall x y, x == - y -> Math_sin x == - Math_sin y) /\
  (forall x y, x == y -> Math_sqrt x == Math_sqrt y) /\
  (forall x y x' y', x == x' -> y == y' -> Math_atan2 x y == Math_atan2 x' y') /\
  Math_sqrt 0 == 0 /\
  Math_atan2 0 (Math_sqrt 1) == 0.

(** The reports of an unsafe kind the store finds near midpoint [j] of leg
    [i], and their number along the midpoints of the leg. *)
Definition unsafeNearby (rw : RouteWorld) (i j : nat) (m : Point) : nat :=
  match rw_findNearby rw i j (p_lat m) (p_lng m) (2 # 10) with
  | Returned found =>
      length (List.filter (fun r => isUnsafeType (r_type r)) (default [] found))
  | Thrown _ => 0
  end.

Definition incidentsAlong (rw : RouteWorld) (i : nat) (midPoints : list Point) : nat :=
  sum_list (imap (unsafeNearby rw i) midPoints).

(** The keys of a hotspot: its cell of 3 decimals, under which the
    candidates are told apart, and its key of 5 decimals, under which the
    selection is. *)
Definition cellOf (h : Hotspot) : coordKey := keyOf 3 (h_lat h) (h_lng h).

Definition keyOfHotspot (h : Hotspot) : coordKey := keyOf 5 (h_lat h) (h_lng h).

(** The score of the hotspot is in [0.1, 0.9], its category is the one of
    its score, and it counts 3 reports at least. *)
Definition hotspotSound (h : Hotspot) : Prop :=
  (1 # 10 <= safetyScore h /\ safetyScore h <= 9 # 10) /\
  category h = categoryOf (safetyScore h) /\
  (3 <= reportCount h)%nat.

Definition serviceSound (st : Service) : Prop :=
  cacheHolds scoreInRange st /\ Forall hotspotSound (predictedHotspots st).

End FurtherVocabulary.

(** ** Stand-ins for the collaborators, for the examples *)

(** A runtime with small-angle trigonometry ([sin x] is [x], [cos x] is 1)
    and UTC dates. *)
Definition coarseRuntime : Runtime :=
  {| Math_sin := fun x => x;
     Math_cos := fun _ => 1;
     Math_sqrt := fun x => x;
     Math_atan2 := fun y _ => y;
     Math_PI := 3;
     getHours := fun t => ((t / 3600000) mod 24)%Z;
     getDay := fun t => ((t / 86400000 + 4) mod 7)%Z;
     numberToString := fun x => if Qeq_bool x 0 then "0"%string else "0.5"%string;
     parseNumericLiteral := fun _ => None |}.

(** A store that keeps its reports in a list, newest first. *)
Definition memoryStore `{Runtime} : ReportStore :=
  {| Store := list Report;
     findNearby := fun db lat lng radius =>
       Returned (Some (List.filter
         (fun r => Qleb (calculateDistance lat lng (r_lat r) (r_lng r)) radius) db));
     findRecent := fun db n => Returned (take (N.to_nat n) db) |}.

(** A store that fails on every call. *)
Definition brokenStore : ReportStore :=
  {| Store := unit;
     findNearby := fun _ _ _ _ => Thrown "MongoNetworkError";
     findRecent := fun _ _ => Thrown "MongoNetworkError" |}.

(** A model that answers its single weight, and whose fit leaves it as it is. *)
Definition constantRegressor : Regressor :=
  {| Model := Q;
     createModel := 5 # 10;
     predict := fun m _ => Returned m;
     fit := fun m _ => (m, Returned [1 # 100]) |}.

(** A model whose inference fails. *)
Definition brokenRegressor : Regressor :=
  {| Model := unit;
     createModel := tt;
     predict := fun _ _ => Thrown "inference failed";
     fit := fun m _ => (m, Thrown "fit failed") |}.

Definition reportAt (lat lng : Q) (type : string) (severity : Q) (timestamp : Z)
  : Report :=
  {| r_lat := lat; r_lng := lng; r_type := type; r_severity := severity;
     r_timestamp := timestamp |}.

(** Requests for the examples. *)

(** Every prediction resolves and the store finds nothing. *)
Definition quietWorld : RouteWorld :=
  {| rw_random := fun _ => 1 # 2;
     rw_predictSafety := fun _ _ _ _ =>
       Returned {| score := 7 # 10; confidence := 5 # 10 |};
     rw_findNearby := fun _ _ _ _ _ => Returned (Some []) |}.

(** Every prediction is rejected and the store answers null. *)
Definition rejectingWorld : RouteWorld :=
  {| rw_random := fun _ => 1 # 2;
     rw_predictSafety := fun _ _ _ _ => Thrown "prediction failed";
     rw_findNearby := fun _ _ _ _ _ => Returned None |}.

(** The store and the model raise on every call. *)
Definition failingWorld : RouteWorld :=
  {| rw_random := fun _ => 1 # 2;
     rw_predictSafety := fun _ _ _ _ => Thrown "prediction failed";
     rw_findNearby := fun _ _ _ _ _ => Thrown "MongoNetworkError" |}.

(** A submission that is saved and broadcast. *)
Definition savingWorld : SubmitWorld :=
  {| sw_now := 1700000000000;
     sw_save := fun r => Returned r;
     sw_getIO := Returned tt |}.

(** A report of a safe place, of the lowest severity. *)
Definition calmInput : ReportInput :=
  {| in_location := Some (CNum (2861 # 100), CNum (7720 # 100));
     in_description := Some "well lit street"%string;
     in_type := Some "safe"%string;
     in_severity := Some 1 |}.


(** The service for the examples: the runtime, the store and the model
    above, and clock readings on the first of January 1970. *)

Definition exampleStore : ReportStore := @memoryStore coarseRuntime.

Definition noon : Z := 12 * 3600000.
Definition oneDay : Z := 86400000.

(** A call that observes the reports [reports] and reads [t] from the clock
    throughout. *)
Definition worldAt (reports : list Report) (t : Z) (rnd : Q) : @World exampleStore :=
  {| db := reports : @Store exampleStore;
     now_check := t; now_query := t; now_heur := t;
     random := rnd; now_write := t |}.

(** A service with a model loaded and nothing cached. *)
Definition loadedService : @Service constantRegressor :=
  {| model := Some ((5 # 10) : @Model constantRegressor);
     isTraining := false; lastTrainedAt := None;
     trainingQueue := []; predictionCache := ∅; modelLoss := None;
     predictedHotspots := []; lastSampleSize := 0 |}.

Definition staleEntry : CacheEntry :=
  {| c_score := 3 # 10; c_confidence := 5 # 10; c_timestamp := noon |}.

(** A service with a prediction cached for (1, 1), idle or in the middle of a
    training pass. *)
Definition cachedService (training : bool) : @Service constantRegressor :=
  {| model := Some ((5 # 10) : @Model constantRegressor);
     isTraining := training; lastTrainedAt := None;
     trainingQueue := []; predictionCache := {[ keyOf 5 1 1 := staleEntry ]};
     modelLoss := None; predictedHotspots := []; lastSampleSize := 0 |}.

(** Ten reports at (1, 1) dated thirty days after noon. *)
Definition postdatedReports : list Report :=
  repeat (reportAt 1 1 "safe" 1 (noon + 30 * oneDay)) 10.

(** Three reports at (1, 1) of the days before noon. *)
Definition earlierReports : list Report :=
  [ reportAt 1 1 "safe" 1 (noon - oneDay);
    reportAt 1 1 "unsafe" 4 (noon - 2 * oneDay);
    reportAt 1 1 "incident" 5 (noon - 3600000) ].

(** Twenty reports, two degrees of latitude apart from one another. *)
Definition sparseReports : list Report :=
  map (fun i => reportAt (ofNat (2 * i)) 0 "unsafe" 3 noon) (seq 0 20).

Definition exampleTrainWorld (reports : list Report) : @TrainWorld exampleStore :=
  {| t_db := reports : @Store exampleStore;
     t_now := noon; t_random := fun _ => 0; t_done := noon + 1000 |}.

Definition exampleHotspotWorld (reports : list Report) : @HotspotWorld exampleStore :=
  {| hs_db := reports : @Store exampleStore;
     hs_worlds := fun _ => worldAt reports noon (1 # 2) |}.

(** The model is created at start-up, which starts a training pass, and two
    reports are submitted while the pass runs. *)
Definition submissionsDuringTraining
  : list (@Event exampleStore constantRegressor) :=
  [ EvInit (Returned None) noon; EvSchedule (noon + 1); EvSchedule (noon + 2) ].

(** Stand-ins for the examples of the further properties. *)

(** A runtime whose sine is the identity cut off at -1 and 1. *)
Definition clampedRuntime : Runtime :=
  {| Math_sin := fun x => Qmax (-1) (Qmin 1 x);
     Math_cos := fun _ => 1;
     Math_sqrt := fun x => x;
     Math_atan2 := fun y _ => y;
     Math_PI := 3;
     getHours := fun t => ((t / 3600000) mod 24)%Z;
     getDay := fun t => ((t / 86400000 + 4) mod 7)%Z;
     numberToString := fun x => if Qeq_bool x 0 then "0"%string else "0.5"%string;
     parseNumericLiteral := fun _ => None |}.

(** Twenty reports at (1, 1) of the day before noon. *)
Definition clusteredReports : list Report :=
  repeat (reportAt 1 1 "safe" 1 (noon - oneDay)) 20.

(** A trained service: a model, a loss and the time of the training. *)
Definition trainedService : @Service constantRegressor :=
  {| model := Some ((5 # 10) : @Model constantRegressor);
     isTraining := false; lastTrainedAt := Some noon;
     trainingQueue := []; predictionCache := ∅; modelLoss := Some (1 # 100);
     predictedHotspots := []; lastSampleSize := 20 |}.

Definition emptyDisk : @Disk constantRegressor :=
  {| d_model := None; d_metadata := None |}.

Definition everyFileOperationSucceeds : SaveWorld :=
  {| mkdir_ok := true; save_ok := true; writeFile_ok := true; readdir_ok := true |}.

(** Start-up with nothing on the disk, a prediction during the first pass,
    the end of the pass over the clustered reports, a cache cleanup and a
    second scheduling. *)
Definition oneDayOfService : list (@Event exampleStore constantRegressor) :=
  [ EvInit (Returned None) noon;
    EvPredict (worldAt clusteredReports (noon + 1000) (1 # 2)) 1 1;
    EvPassEnds (exampleTrainWorld clusteredReports) (exampleHotspotWorld clusteredReports);
    EvCleanup (noon + 400000);
    EvSchedule (noon + 500000) ].

(** * Properties *)

(** ** The controller *)

Section ControllerFacts.
Context `{Runtime}.

Lemma getSafeRoutes_returns rw location :
  exists resp, getSafeRoutes rw location = Returned resp.
Proof.
  unfold getSafeRoutes. destruct (getSafeRoutes_try rw location); eauto.
Qed.

Lemma getReports_returns nearby location radius :
  exists resp, getReports nearby location radius = Returned resp.
Proof.
  unfold getReports. destruct (getReports_try nearby location radius); eauto.
Qed.

Lemma generateRoutePoints_length rnd lat lng count distanceKm :
  length (generateRoutePoints rnd lat lng count distanceKm) = count.
Proof. unfold generateRoutePoints. now rewrite length_map, length_seq. Qed.

Lemma getMidPoints_length lat1 lng1 lat2 lng2 count :
  length (getMidPoints lat1 lng1 lat2 lng2 count) = count.
Proof. unfold getMidPoints. now rewrite length_map, length_seq. Qed.

Lemma scoreMidPoints_returns rw i :
  storeAnswers rw ->
  forall midPoints j totalScore incidents, exists r,
    scoreMidPoints rw i j midPoints totalScore incidents = Returned r.
Proof.
  intros Hstore. induction midPoints as [|m rest IH]; intros j total inc; simpl.
  - eauto.
  - destruct (Hstore i j (p_lat m) (p_lng m) (2 # 10)) as [found ->]. simpl.
    apply IH.
Qed.

Lemma scoreLegs_length rw lat lng :
  storeAnswers rw ->
  forall routePoints i routes, exists routes',
    scoreLegs rw lat lng i routePoints routes = Returned routes' /\
    length routes' = (length routes + length routePoints)%nat.
Proof.
  intros Hstore. induction routePoints as [|pt rest IH]; intros i routes.
  - exists routes. split; [reflexivity | simpl; lia].
  - cbn [scoreLegs].
    destruct (scoreMidPoints_returns rw i Hstore
                (getMidPoints lat lng (p_lat pt) (p_lng pt) 3) 0%nat (VNum 0) 0%nat)
      as [r ->].
    cbn [obind].
    match goal with
    | |- context [scoreLegs rw lat lng (S i) rest ?rs] =>
        destruct (IH (S i) rs) as [routes' [-> Hlen]]
    end.
    exists routes'. split; [reflexivity |].
    rewrite Hlen, length_app. simpl. lia.
Qed.


Lemma falsy_nonzero x : ~ x == 0 -> falsy (CNum x) = false.
Proof.
  intros Hx. simpl. destruct (Qeq_bool x 0) eqn:E; [|reflexivity].
  apply Qeq_bool_iff in E. contradiction.
Qed.

Lemma scoreLegs_Forall rw lat lng (P : Route -> Prop) :
  (forall i pt r,
      scoreMidPoints rw i 0 (getMidPoints lat lng (p_lat pt) (p_lng pt) 3) (VNum 0) 0
        = Returned r ->
      P (legRecord lat lng pt r)) ->
  forall routePoints i routes routes',
    Forall P routes ->
    scoreLegs rw lat lng i routePoints routes = Returned routes' ->
    Forall P routes'.
Proof.
  intros Hleg. induction routePoints as [|pt rest IH]; intros i routes routes' Hall Hrun.
  - simpl in Hrun. now inversion Hrun; subst.
  - cbn [scoreLegs] in Hrun.
    destruct (scoreMidPoints rw i 0 (getMidPoints lat lng (p_lat pt) (p_lng pt) 3)
                (VNum 0) 0) as [r|msg] eqn:E; cbn [obind] in Hrun; [|discriminate].
    eapply IH; [|exact Hrun].
    apply Forall_app. split; [exact Hall|].
    constructor; [|constructor]. apply (Hleg i pt r E).
Qed.

Lemma scoreLegs_raises rw lat lng :
  storeRaises rw ->
  forall pt rest i routes, exists msg,
    scoreLegs rw lat lng i (pt :: rest) routes = Thrown msg.
Proof.
  intros Hraise pt rest i routes. cbn [scoreLegs].
  unfold getMidPoints. cbn [seq map scoreMidPoints].
  match goal with
  | |- context [rw_findNearby rw i 0%nat ?la ?ln ?r] =>
      destruct (Hraise i 0%nat la ln r) as [msg ->]
  end.
  cbn [obind]. eauto.
Qed.

(** *** Rejected predictions *)

Lemma scoreMidPoints_rejected rw i :
  predictionsRejected rw ->
  forall midPoints j x inc r,
    scoreMidPoints rw i j midPoints (VNum x) inc = Returned r ->
    exists q, fst r = VNum q /\ q == x + (1 # 2) * ofNat (length midPoints).
Proof.
  intros Hrej. induction midPoints as [|m rest IH]; intros j x inc r Hrun.
  - simpl in Hrun. inversion Hrun; subst. exists x. split; [reflexivity|].
    unfold ofNat. simpl. ring.
  - cbn [scoreMidPoints] in Hrun.
    destruct (Hrej i j (p_lat m) (p_lng m)) as [msg Hp]. rewrite Hp in Hrun.
    destruct (rw_findNearby rw i j (p_lat m) (p_lng m) (2 # 10)) as [found|e];
      cbn [obind] in Hrun; [|discriminate].
    change (js_add (VNum x) (VNum (5 # 10))) with (VNum (x + (5 # 10))) in Hrun.
    destruct (IH _ _ _ _ Hrun) as [q [Hq Heq]].
    exists q. split; [exact Hq|]. rewrite Heq.
    unfold ofNat. cbn [length]. rewrite Nat2Z.inj_succ, <- Z.add_1_r, inject_Z_plus.
    change (inject_Z 1) with 1. lra.
Qed.

Lemma scoreMidPoints_no_incident rw i :
  storeFindsNothing rw ->
  forall midPoints j total inc r,
    scoreMidPoints rw i j midPoints total inc = Returned r -> snd r = inc.
Proof.
  intros Hnone. induction midPoints as [|m rest IH]; intros j total inc r Hrun.
  - simpl in Hrun. now inversion Hrun.
  - cbn [scoreMidPoints] in Hrun.
    destruct (Hnone i j (p_lat m) (p_lng m) (2 # 10)) as [Hf|Hf];
      rewrite Hf in Hrun; cbn [obind] in Hrun; simpl in Hrun;
      apply IH in Hrun; rewrite Hrun; lia.
Qed.

(** *** Resolved predictions *)

Lemma list_ascii_append s1 s2 :
  list_ascii_of_string (s1 ++ s2)
  = (list_ascii_of_string s1 ++ list_ascii_of_string s2)%list.
Proof. induction s1 as [|c s1 IH]; simpl; [reflexivity | now rewrite IH]. Qed.

Lemma mentionsObject_l s1 s2 : mentionsObject s1 -> mentionsObject (s1 ++ s2).
Proof.
  unfold mentionsObject. rewrite list_ascii_append, in_app_iff. tauto.
Qed.

Lemma mentionsObject_r s1 s2 : mentionsObject s2 -> mentionsObject (s1 ++ s2).
Proof.
  unfold mentionsObject. rewrite list_ascii_append, in_app_iff. tauto.
Qed.

Lemma objectText_mentionsObject : mentionsObject "[object Object]".
Proof. unfold mentionsObject. simpl. tauto. Qed.

Lemma js_add_object total p : tainted (js_add total (VObj p)).
Proof.
  destruct total as [x| |s|p']; unfold js_add, toString; cbn [toPrimitive];
    eexists; (split; [reflexivity|]);
    auto using mentionsObject_r, objectText_mentionsObject.
Qed.

Lemma js_add_tainted total v : tainted total -> tainted (js_add total v).
Proof.
  intros [s [-> Hs]]. unfold js_add. cbn [toPrimitive].
  eexists. split; [reflexivity|]. now apply mentionsObject_l.
Qed.

Lemma stringToNumber_object s : mentionsObject s -> stringToNumber s = VNaN.
Proof.
  unfold mentionsObject, stringToNumber. intros Hin.
  destruct (forallb _ (list_ascii_of_string s)) eqn:E; [|reflexivity].
  rewrite forallb_forall in E. specialize (E _ Hin).
  vm_compute in E. discriminate.
Qed.

Lemma js_div_tainted v n : tainted v -> js_div v n = VNaN.
Proof.
  intros [s [-> Hs]]. unfold js_div, toNumber. cbn [toPrimitive].
  now rewrite stringToNumber_object.
Qed.

Lemma scoreMidPoints_resolved rw i :
  predictionsResolve rw ->
  forall midPoints j total inc r,
    tainted total \/ midPoints <> [] ->
    scoreMidPoints rw i j midPoints total inc = Returned r ->
    tainted (fst r).
Proof.
  intros Hres. induction midPoints as [|m rest IH]; intros j total inc r Hpre Hrun.
  - simpl in Hrun. inversion Hrun; subst. simpl. destruct Hpre; [assumption|congruence].
  - cbn [scoreMidPoints] in Hrun.
    destruct (Hres i j (p_lat m) (p_lng m)) as [p Hp]. rewrite Hp in Hrun.
    destruct (rw_findNearby rw i j (p_lat m) (p_lng m) (2 # 10)) as [found|e];
      cbn [obind] in Hrun; [|discriminate].
    eapply IH; [|exact Hrun]. left. apply js_add_object.
Qed.


(** *** Route scoring *)

Lemma getSafeRoutes_nonzero rw lat lng :
  ~ lat == 0 -> ~ lng == 0 ->
  getSafeRoutes rw (ParsedObject (CNum lat) (CNum lng))
  = match scoreLegs rw lat lng 0 (generateRoutePoints (rw_random rw) lat lng 8 1) [] with
    | Returned routes => Returned {| status := 200; json := RoutesBody routes |}
    | Thrown msg => Returned (serverError msg)
    end.
Proof.
  intros Hlat Hlng. unfold getSafeRoutes, getSafeRoutes_try.
  rewrite (falsy_nonzero lat Hlat), (falsy_nonzero lng Hlng). cbn [orb].
  destruct (scoreLegs rw lat lng 0 _ []); reflexivity.
Qed.

Lemma getSafeRoutes_records rw lat lng :
  ~ lat == 0 -> ~ lng == 0 -> storeAnswers rw ->
  exists routes,
    scoreLegs rw lat lng 0 (generateRoutePoints (rw_random rw) lat lng 8 1) []
      = Returned routes /\
    getSafeRoutes rw (ParsedObject (CNum lat) (CNum lng))
      = Returned {| status := 200; json := RoutesBody routes |} /\
    length routes = 8%nat.
Proof.
  intros Hlat Hlng Hstore.
  destruct (scoreLegs_length rw lat lng Hstore
              (generateRoutePoints (rw_random rw) lat lng 8 1) 0%nat [])
    as [routes [Hrun Hlen]].
  exists routes. split; [exact Hrun|]. split.
  - rewrite getSafeRoutes_nonzero by assumption. now rewrite Hrun.
  - rewrite Hlen, generateRoutePoints_length. reflexivity.
Qed.

(** C1, as the code has it: for an origin whose latitude and longitude are
    not zero, [getSafeRoutes] never throws; when the store answers its
    queries the response carries exactly 8 route records, whatever the
    predictions do; when every prediction is rejected each record has the
    neutral score 0.5, and when the store finds nothing each record counts
    0 incidents; when the store raises, the response is the 500 error. *)
Theorem getSafeRoutes_degrades rw lat lng :
  ~ lat == 0 -> ~ lng == 0 ->
  (exists resp,
      getSafeRoutes rw (ParsedObject (CNum lat) (CNum lng)) = Returned resp) /\
  (storeAnswers rw ->
     exists routes,
       getSafeRoutes rw (ParsedObject (CNum lat) (CNum lng))
         = Returned {| status := 200; json := RoutesBody routes |} /\
       length routes = 8%nat /\
       (predictionsRejected rw ->
          Forall (fun r => exists q, route_safetyScore r = VNum q /\ q == 1 # 2)
                 routes) /\
       (storeFindsNothing rw -> Forall (fun r => incidents r = 0%nat) routes)) /\
  (storeRaises rw ->
     exists msg,
       getSafeRoutes rw (ParsedObject (CNum lat) (CNum lng))
         = Returned (serverError msg)).
Proof.
  intros Hlat Hlng. split; [apply getSafeRoutes_returns|]. split.
  - intros Hstore.
    destruct (getSafeRoutes_records rw lat lng Hlat Hlng Hstore)
      as [routes [Hrun [Hresp Hlen]]].
    exists routes. split; [exact Hresp|]. split; [exact Hlen|]. split.
    + intros Hrej. eapply scoreLegs_Forall; [|constructor|exact Hrun].
      intros i pt r Hr.
      destruct (scoreMidPoints_rejected rw i Hrej _ _ _ _ _ Hr) as [q [Hq Heq]].
      unfold legRecord. cbn [route_safetyScore].
      rewrite Hq, getMidPoints_length in *.
      exists (q / ofNat 3). split; [reflexivity|].
      rewrite Heq. vm_compute. reflexivity.
    + intros Hnone. eapply scoreLegs_Forall; [|constructor|exact Hrun].
      intros i pt r Hr. unfold legRecord. cbn [incidents].
      apply (scoreMidPoints_no_incident rw i Hnone _ _ _ _ _ Hr).
  - intros Hraise. rewrite getSafeRoutes_nonzero by assumption.
    unfold generateRoutePoints. cbn [seq map].
    match goal with
    | |- context [scoreLegs rw lat lng 0 (?pt :: ?rest) []] =>
        destruct (scoreLegs_raises rw lat lng Hraise pt rest 0%nat []) as [msg ->]
    end.
    eauto.
Qed.

(** C2, where the code departs from it: [predictSafety] resolves to an
    object, which the loop adds to [totalScore] as it is; whenever the
    predictions resolve and the store answers, each of the 8 route records
    has the score [NaN], not the mean of the three midpoint scores. *)
Theorem getSafeRoutes_scores_are_NaN rw lat lng :
  ~ lat == 0 -> ~ lng == 0 ->
  predictionsResolve rw -> storeAnswers rw ->
  exists routes,
    getSafeRoutes rw (ParsedObject (CNum lat) (CNum lng))
      = Returned {| status := 200; json := RoutesBody routes |} /\
    length routes = 8%nat /\
    Forall (fun r => route_safetyScore r = VNaN) routes.
Proof.
  intros Hlat Hlng Hres Hstore.
  destruct (getSafeRoutes_records rw lat lng Hlat Hlng Hstore)
    as [routes [Hrun [Hresp Hlen]]].
  exists routes. split; [exact Hresp|]. split; [exact Hlen|].
  eapply scoreLegs_Forall; [|constructor|exact Hrun].
  intros i pt r Hr. unfold legRecord. cbn [route_safetyScore].
  apply js_div_tainted.
  eapply scoreMidPoints_resolved; [exact Hres| |exact Hr].
  right. unfold getMidPoints. cbn [seq map]. discriminate.
Qed.

(** *** Location validation *)

(** C10: a parsed location whose latitude or longitude is the number 0 is
    answered with status 400 and "Invalid location data" by [getSafeRoutes]
    and by [getReports], as a location that lacks the coordinate is. *)
Theorem zero_coordinate_is_invalid rw nearby radius (c : coord) :
  getSafeRoutes rw (ParsedObject (CNum 0) c) = Returned invalidLocation /\
  getSafeRoutes rw (ParsedObject c (CNum 0)) = Returned invalidLocation /\
  getReports nearby (ParsedObject (CNum 0) c) radius = Returned invalidLocation /\
  getReports nearby (ParsedObject c (CNum 0)) radius = Returned invalidLocation /\
  getSafeRoutes rw (ParsedObject CUndefined c) = Returned invalidLocation /\
  getSafeRoutes rw (ParsedObject c CUndefined) = Returned invalidLocation /\
  getReports nearby (ParsedObject CUndefined c) radius = Returned invalidLocation /\
  getReports nearby (ParsedObject c CUndefined) radius = Returned invalidLocation /\
  status invalidLocation = 400%nat /\
  json invalidLocation = ErrorBody "Invalid location data" None.
Proof.
  unfold getSafeRoutes, getSafeRoutes_try, getReports, getReports_try.
  repeat split; try reflexivity;
    destruct c as [| |x]; try reflexivity;
    cbn [falsy]; destruct (Qeq_bool x 0); reflexivity.
Qed.

(** *** Report submission *)

(** C7, as the code has it: [submitReport] never throws, and it calls
    [scheduleTraining()] exactly once when the submission succeeds (status
    201), whatever the severity and the type of the report, and not at all
    when the submission is rejected or fails. *)
Theorem submitReport_schedules_on_success sw input :
  exists resp,
    snd (submitReport sw input) = Returned resp /\
    scheduleCalls (fst (submitReport sw input))
      = (if (status resp =? 201)%nat then 1 else 0)%nat.
Proof.
  unfold submitReport, submitReport_try.
  destruct (in_location input) as [[lat lng]|];
    [destruct (in_description input) as [[|c d]|]|];
    try (eexists; split; reflexivity).
  destruct (sw_save sw _) as [saved|msg]; [|eexists; split; reflexivity].
  destruct (sw_getIO sw) as [[]|msg]; eexists; split; reflexivity.
Qed.

End ControllerFacts.

(** *** The controller on the example requests *)

Lemma one_is_not_zero : ~ 1 == 0.
Proof. intros E. discriminate E. Qed.

Lemma quietWorld_resolves : predictionsResolve quietWorld.
Proof. intros i j lat lng. eexists. reflexivity. Qed.

Lemma quietWorld_answers : storeAnswers quietWorld.
Proof. intros i j lat lng radius. eexists. reflexivity. Qed.

Lemma rejectingWorld_answers : storeAnswers rejectingWorld.
Proof. intros i j lat lng radius. eexists. reflexivity. Qed.

Lemma rejectingWorld_rejects : predictionsRejected rejectingWorld.
Proof. intros i j lat lng. eexists. reflexivity. Qed.

Lemma rejectingWorld_finds_nothing : storeFindsNothing rejectingWorld.
Proof. intros i j lat lng radius. left. reflexivity. Qed.

(** C1 fails as stated: with the store and the model raising on every call,
    the request from the origin (1, 1) is answered with the 500 error and
    no route record. *)
Lemma getSafeRoutes_store_failure_is_500 :
  getSafeRoutes (H := coarseRuntime) failingWorld (ParsedObject (CNum 1) (CNum 1))
  = Returned {| status := 500;
                json := ErrorBody "Server error" (Some "MongoNetworkError"%string) |}.
Proof. vm_compute. reflexivity. Qed.

(** The request from (1, 1) when every prediction is rejected and the store
    answers null. *)
Lemma getSafeRoutes_degrades_witness :
  exists routes,
    getSafeRoutes (H := coarseRuntime) rejectingWorld (ParsedObject (CNum 1) (CNum 1))
      = Returned {| status := 200; json := RoutesBody routes |} /\
    length routes = 8%nat /\
    Forall (fun r => exists q, route_safetyScore r = VNum q /\ q == 1 # 2) routes /\
    Forall (fun r => incidents r = 0%nat) routes.
Proof.
  destruct (getSafeRoutes_degrades (H := coarseRuntime) rejectingWorld 1 1
              one_is_not_zero one_is_not_zero) as [_ [Hok _]].
  destruct (Hok rejectingWorld_answers) as [routes [Hresp [Hlen [Hscore Hinc]]]].
  exists routes. split; [exact Hresp|]. split; [exact Hlen|]. split.
  - exact (Hscore rejectingWorld_rejects).
  - exact (Hinc rejectingWorld_finds_nothing).
Defined.

(** The request from (1, 1) when every prediction resolves to
    [{score: 0.7, confidence: 0.5}] and the store finds nothing. *)
Lemma getSafeRoutes_scores_are_NaN_witness :
  exists routes,
    getSafeRoutes (H := coarseRuntime) quietWorld (ParsedObject (CNum 1) (CNum 1))
      = Returned {| status := 200; json := RoutesBody routes |} /\
    length routes = 8%nat /\
    Forall (fun r => route_safetyScore r = VNaN) routes.
Proof.
  exact (getSafeRoutes_scores_are_NaN (H := coarseRuntime) quietWorld 1 1
           one_is_not_zero one_is_not_zero quietWorld_resolves quietWorld_answers).
Defined.

(** C7 fails as stated: a successful submission of severity 1 and type
    "safe" calls [scheduleTraining()] once. *)
Lemma calm_report_schedules_training :
  in_severity calmInput = Some 1 /\
  in_type calmInput = Some "safe"%string /\
  (exists report,
      snd (submitReport savingWorld calmInput)
      = Returned {| status := 201; json := SubmitBody true report |}) /\
  scheduleCalls (fst (submitReport savingWorld calmInput)) = 1%nat.
Proof.
  split; [reflexivity|]. split; [reflexivity|]. split; [|reflexivity].
  eexists. reflexivity.
Qed.

(** ** Arithmetic of the scores *)

Lemma clamp_range x :
  1 # 10 <= Qmax (1 # 10) (Qmin (9 # 10) x) /\
  Qmax (1 # 10) (Qmin (9 # 10) x) <= 9 # 10.
Proof.
  split; [apply Q.le_max_l|].
  apply Q.max_lub; [discriminate | apply Q.le_min_l].
Qed.

Lemma sumBy_acc {A : Type} (f : A -> Q) (l : list A) (acc : Q) :
  Forall (fun x => 0 <= f x) l -> 0 <= acc ->
  0 <= fold_left (fun sum x => sum + f x) l acc.
Proof.
  revert acc. induction l as [|x l IH]; intros acc Hall Hacc; simpl; [exact Hacc|].
  inversion Hall; subst. apply IH; [assumption|]. lra.
Qed.

Lemma sumBy_nonneg {A : Type} (f : A -> Q) (l : list A) :
  Forall (fun x => 0 <= f x) l -> 0 <= sumBy f l.
Proof. intros Hall. unfold sumBy. apply sumBy_acc; [exact Hall | lra]. Qed.

Lemma div_nonneg a b : 0 <= a -> 0 < b -> 0 <= a / b.
Proof.
  intros Ha Hb. apply Qle_shift_div_l; [exact Hb|]. lra.
Qed.

Lemma ofNat_nonneg n : 0 <= ofNat n.
Proof.
  unfold ofNat. change 0 with (inject_Z 0). rewrite <- Zle_Qle. lia.
Qed.

Lemma ofNat_pos n : (0 < n)%nat -> 0 < ofNat n.
Proof.
  intros Hn. unfold ofNat. change 0 with (inject_Z 0). rewrite <- Zlt_Qlt. lia.
Qed.

Lemma countFactor_range x : 0 <= x -> 0 <= Qmin 1 (x / 10) /\ Qmin 1 (x / 10) <= 1.
Proof.
  intros Hx. split; [|apply Q.le_min_l].
  apply Q.min_glb; [lra|]. apply div_nonneg; lra.
Qed.

Lemma recencyFactor_range d :
  0 <= d -> 5 # 10 <= Qmax (5 # 10) (1 - d / 30) /\ Qmax (5 # 10) (1 - d / 30) <= 1.
Proof.
  intros Hd. split; [apply Q.le_max_l|].
  apply Q.max_lub; [lra|].
  assert (0 <= d / 30) by (apply div_nonneg; lra). lra.
Qed.

Lemma confidence_range rc rec :
  0 <= rc -> rc <= 1 -> 5 # 10 <= rec -> rec <= 1 ->
  0 <= rc * (7 # 10) + rec * (3 # 10) /\ rc * (7 # 10) + rec * (3 # 10) <= 1.
Proof. intros. split; lra. Qed.

(** ** The model service *)

Section ServiceFacts.
Context `{Runtime} `{ReportStore} `{Regressor}.

Lemma getHeuristicSafety_range w lat lng :
  1 # 10 <= getHeuristicSafety w lat lng /\ getHeuristicSafety w lat lng <= 9 # 10.
Proof. unfold getHeuristicSafety. apply clamp_range. Qed.

Lemma heuristicPrediction_inRange w lat lng :
  scoreInRange (heuristicPrediction w lat lng) /\
  confidenceInRange (heuristicPrediction w lat lng).
Proof.
  unfold scoreInRange, confidenceInRange, heuristicPrediction. cbn [score confidence].
  destruct (getHeuristicSafety_range w lat lng). repeat split; auto; discriminate.
Qed.

Lemma store_failure_is_internal m w lat lng msg :
  findNearby (db w) lat lng (5 # 10) = Thrown msg -> internalFailure m w lat lng.
Proof. intros E. exists msg. unfold predictSafety_try. now rewrite E. Qed.

Lemma null_answer_is_internal m w lat lng :
  findNearby (db w) lat lng (5 # 10) = Returned None -> internalFailure m w lat lng.
Proof. intros E. eexists. unfold predictSafety_try. rewrite E. reflexivity. Qed.

Lemma inference_failure_is_internal m w lat lng reports :
  findNearby (db w) lat lng (5 # 10) = Returned (Some reports) ->
  reports <> [] ->
  (forall input, exists msg, predict m input = Thrown msg) ->
  internalFailure m w lat lng.
Proof.
  intros E Hne Hfail. unfold internalFailure, predictSafety_try. rewrite E.
  cbn [obind]. destruct reports as [|r rs]; [congruence|].
  cbn [length Nat.eqb].
  match goal with
  | |- context [predict m ?input] => destruct (Hfail input) as [msg ->]
  end.
  cbn [obind]. eauto.
Qed.

Lemma no_report_is_heuristic m w lat lng :
  findNearby (db w) lat lng (5 # 10) = Returned (Some []) ->
  predictSafety_try m w lat lng = Returned (heuristicPrediction w lat lng).
Proof. intros E. unfold predictSafety_try. rewrite E. reflexivity. Qed.

Lemma predictSafety_try_score m w lat lng p :
  predictSafety_try m w lat lng = Returned p -> scoreInRange p.
Proof.
  intros Hrun. unfold predictSafety_try in Hrun.
  destruct (findNearby (db w) lat lng (5 # 10)) as [[reports|]|msg];
    cbn [obind] in Hrun; try discriminate.
  destruct (length reports =? 0)%nat.
  - inversion Hrun; subst. apply heuristicPrediction_inRange.
  - match type of Hrun with
    | context [predict m ?input] => destruct (predict m input) as [s|msg]
    end; cbn [obind] in Hrun; [|discriminate].
    inversion Hrun; subst; clear Hrun. unfold scoreInRange. cbn [score].
    apply clamp_range.
Qed.

Lemma predictSafety_try_confidence m w lat lng p :
  notPostdated w lat lng ->
  predictSafety_try m w lat lng = Returned p ->
  confidenceInRange p.
Proof.
  intros Hpast Hrun. unfold predictSafety_try in Hrun.
  destruct (findNearby (db w) lat lng (5 # 10)) as [[reports|]|msg] eqn:E;
    cbn [obind] in Hrun; try discriminate.
  specialize (Hpast reports E).
  destruct (length reports =? 0)%nat eqn:Elen.
  - inversion Hrun; subst. apply heuristicPrediction_inRange.
  - apply Nat.eqb_neq in Elen.
    match type of Hrun with
    | context [predict m ?input] => destruct (predict m input) as [s|msg]
    end; cbn [obind] in Hrun; [|discriminate].
    inversion Hrun; subst; clear Hrun. unfold confidenceInRange. cbn [confidence].
    assert (Hn : 0 < ofNat (length reports)) by (apply ofNat_pos; lia).
    assert (Havg : 0 <= sumBy (fun r => ofZ (now_query w - r_timestamp r) / msPerDay)
                          reports / ofNat (length reports)).
    { apply div_nonneg; [|exact Hn]. apply sumBy_nonneg.
      eapply List.Forall_impl; [|exact Hpast]. intros r Hr. cbn beta in Hr |- *.
      apply div_nonneg; [|reflexivity].
      unfold ofZ. change 0 with (inject_Z 0). rewrite <- Zle_Qle. lia. }
    destruct (countFactor_range (ofNat (length reports)) (ofNat_nonneg _)) as [Hc0 Hc1].
    destruct (recencyFactor_range _ Havg) as [Hr0 Hr1].
    apply confidence_range; assumption.
Qed.

(** *** The two paths of [predictSafety] *)

Lemma predictSafety_hit st w lat lng m e :
  model st = Some m ->
  freshEntry st w (keyOf 5 lat lng) = Some e ->
  predictSafety st w lat lng = (Returned (cachedPrediction e), st).
Proof. intros Hm He. unfold predictSafety. now rewrite Hm, He. Qed.

Lemma predictSafety_miss st w lat lng :
  model st = None \/ freshEntry st w (keyOf 5 lat lng) = None ->
  predictSafety st w lat lng
  = (Returned (recomputed st w lat lng),
     cachePut (keyOf 5 lat lng) (recomputed st w lat lng) (now_write w) st).
Proof.
  intros Hmiss. unfold predictSafety, recomputed.
  destruct (model st) as [m|]; [|reflexivity].
  destruct Hmiss as [Hm|He]; [discriminate|]. rewrite He.
  destruct (predictSafety_try m w lat lng); reflexivity.
Qed.

Lemma freshEntry_lookup st w key e :
  freshEntry st w key = Some e ->
  predictionCache st !! key = Some e /\ (now_check w - cacheTTL < c_timestamp e)%Z.
Proof.
  unfold freshEntry. destruct (predictionCache st !! key) as [c|]; [|discriminate].
  destruct (now_check w - cacheTTL <? c_timestamp c)%Z eqn:E; [|discriminate].
  intros [= ->]. split; [reflexivity|]. now apply Z.ltb_lt.
Qed.

Lemma freshEntry_fresh st w key e :
  predictionCache st !! key = Some e ->
  (now_check w - cacheTTL < c_timestamp e)%Z ->
  freshEntry st w key = Some e.
Proof.
  intros Hl Ht. unfold freshEntry. rewrite Hl.
  apply Z.ltb_lt in Ht. now rewrite Ht.
Qed.

Lemma freshEntry_expired st w key e :
  predictionCache st !! key = Some e ->
  (c_timestamp e <= now_check w - cacheTTL)%Z ->
  freshEntry st w key = None.
Proof.
  intros Hl Ht. unfold freshEntry. rewrite Hl.
  destruct (now_check w - cacheTTL <? c_timestamp e)%Z eqn:E; [|reflexivity].
  apply Z.ltb_lt in E. lia.
Qed.

Lemma predictSafety_cases st w lat lng :
  (exists m e,
      model st = Some m /\ freshEntry st w (keyOf 5 lat lng) = Some e /\
      predictSafety st w lat lng = (Returned (cachedPrediction e), st)) \/
  ((model st = None \/ freshEntry st w (keyOf 5 lat lng) = None) /\
   predictSafety st w lat lng
   = (Returned (recomputed st w lat lng),
      cachePut (keyOf 5 lat lng) (recomputed st w lat lng) (now_write w) st)).
Proof.
  destruct (model st) as [m|] eqn:Hm.
  - destruct (freshEntry st w (keyOf 5 lat lng)) as [e|] eqn:He.
    + left. exists m, e. repeat split; auto. now apply predictSafety_hit with m.
    + right. split; [now right|]. apply predictSafety_miss. now right.
  - right. split; [now left|]. apply predictSafety_miss. now left.
Qed.

Lemma recomputed_score st w lat lng : scoreInRange (recomputed st w lat lng).
Proof.
  unfold recomputed.
  destruct (model st) as [m|]; [|apply heuristicPrediction_inRange].
  destruct (predictSafety_try m w lat lng) as [p|msg] eqn:E;
    [|apply heuristicPrediction_inRange].
  now apply predictSafety_try_score with m w lat lng.
Qed.

Lemma recomputed_confidence st w lat lng :
  notPostdated w lat lng -> confidenceInRange (recomputed st w lat lng).
Proof.
  intros Hpast. unfold recomputed.
  destruct (model st) as [m|]; [|apply heuristicPrediction_inRange].
  destruct (predictSafety_try m w lat lng) as [p|msg] eqn:E;
    [|apply heuristicPrediction_inRange].
  now apply predictSafety_try_confidence with m w lat lng.
Qed.

Lemma cachePut_holds (P : Prediction -> Prop) key p t st :
  cacheHolds P st -> P p -> cacheHolds P (cachePut key p t st).
Proof.
  intros Hst Hp key' e. unfold cachePut, setCache. cbn [predictionCache].
  rewrite lookup_insert. case_decide as Hk.
  - intros [= <-]. unfold cachedPrediction. cbn [c_score c_confidence].
    now destruct p.
  - apply Hst.
Qed.

(** A property of the cached predictions and of what a call computes is a
    property of what the call returns, and of the cache it leaves. *)
Lemma predictSafety_holds (P : Prediction -> Prop) st w lat lng :
  cacheHolds P st -> P (recomputed st w lat lng) ->
  exists p st',
    predictSafety st w lat lng = (Returned p, st') /\ P p /\ cacheHolds P st'.
Proof.
  intros Hcache Hnew.
  destruct (predictSafety_cases st w lat lng) as [[m [e [Hm [He Hrun]]]]|[Hmiss Hrun]].
  - exists (cachedPrediction e), st. split; [exact Hrun|].
    apply freshEntry_lookup in He. destruct He as [Hl _].
    split; [exact (Hcache _ _ Hl) | exact Hcache].
  - eexists _, _. split; [exact Hrun|]. split; [exact Hnew|].
    now apply cachePut_holds.
Qed.

(** [predictSafety] changes nothing but the cache. *)
Lemma predictSafety_frame st w lat lng :
  exists c, snd (predictSafety st w lat lng) = setCache c st.
Proof.
  destruct (predictSafety_cases st w lat lng) as [[m [e [_ [_ ->]]]]|[_ ->]].
  - exists (predictionCache st). now destruct st.
  - eexists. reflexivity.
Qed.

(** The ranges of a prediction: [predictSafety] never throws and its score is
    in [0.1, 0.9] (the cached scores being so); its confidence is in [0, 1]
    provided that no report found nearby is dated after the clock reading of
    the call (the cached confidences being so).  With no model, with no
    report nearby, and when the store or the inference fails, the answer is
    the heuristic score with confidence 0.5. *)
Lemma predictSafety_in_range st w lat lng :
  cacheHolds scoreInRange st ->
  exists p st',
    predictSafety st w lat lng = (Returned p, st') /\
    scoreInRange p /\
    cacheHolds scoreInRange st' /\
    (cacheHolds confidenceInRange st -> notPostdated w lat lng ->
       confidenceInRange p /\ cacheHolds confidenceInRange st') /\
    (model st = None -> p = heuristicPrediction w lat lng) /\
    (forall m,
        model st = Some m -> freshEntry st w (keyOf 5 lat lng) = None ->
        internalFailure m w lat lng \/
        findNearby (db w) lat lng (5 # 10) = Returned (Some []) ->
        p = heuristicPrediction w lat lng /\ confidence p = 5 # 10).
Proof.
  intros Hscore.
  destruct (predictSafety_holds scoreInRange st w lat lng Hscore
              (recomputed_score st w lat lng)) as [p [st' [Hrun [Hp Hst']]]].
  exists p, st'. split; [exact Hrun|]. split; [exact Hp|]. split; [exact Hst'|].
  split; [|split].
  - intros Hconf Hpast.
    destruct (predictSafety_holds confidenceInRange st w lat lng Hconf
                (recomputed_confidence st w lat lng Hpast)) as [p2 [st2 [Hrun2 H2]]].
    rewrite Hrun in Hrun2. inversion Hrun2; subst. exact H2.
  - intros Hm. rewrite predictSafety_miss in Hrun by now left.
    inversion Hrun; subst. unfold recomputed. now rewrite Hm.
  - intros m Hm Hfresh Hwhy. rewrite predictSafety_miss in Hrun by now right.
    inversion Hrun; subst. unfold recomputed. rewrite Hm.
    destruct Hwhy as [[msg Hfail]|Hnone].
    + rewrite Hfail. split; reflexivity.
    + rewrite (no_report_is_heuristic m w lat lng Hnone). split; reflexivity.
Qed.

(** C4, as the code has it: a call made with a model loaded, for a
    coordinate that quantizes to the key of an earlier call, before the cache
    entry that served the earlier call is 5 minutes old and with that entry
    still in the cache, returns the score and confidence of the earlier
    call; and a call that finds an entry of 5 minutes or more computes its
    answer as if the entry were not there. *)
Theorem cached_prediction_is_repeated st w1 lat lng p1 st1 :
  predictSafety st w1 lat lng = (Returned p1, st1) ->
  (forall st2 w2 lat2 lng2 m2,
      keyOf 5 lat2 lng2 = keyOf 5 lat lng ->
      model st2 = Some m2 ->
      predictionCache st2 !! keyOf 5 lat lng = predictionCache st1 !! keyOf 5 lat lng ->
      (forall e, predictionCache st1 !! keyOf 5 lat lng = Some e ->
                 (now_check w2 - cacheTTL < c_timestamp e)%Z) ->
      fst (predictSafety st2 w2 lat2 lng2) = Returned p1) /\
  (forall st2 w2 lat2 lng2 e,
      predictionCache st2 !! keyOf 5 lat2 lng2 = Some e ->
      (c_timestamp e <= now_check w2 - cacheTTL)%Z ->
      freshEntry st2 w2 (keyOf 5 lat2 lng2) = None /\
      predictSafety st2 w2 lat2 lng2
      = predictSafety
          (setCache (delete (keyOf 5 lat2 lng2) (predictionCache st2)) st2)
          w2 lat2 lng2 /\
      fst (predictSafety st2 w2 lat2 lng2) = Returned (recomputed st2 w2 lat2 lng2)).
Proof.
  intros Hrun. split.
  - intros st2 w2 lat2 lng2 m2 Hkey Hm2 Hsame Hyoung.
    assert (Hentry : exists e, predictionCache st1 !! keyOf 5 lat lng = Some e /\
                               cachedPrediction e = p1).
    { destruct (predictSafety_cases st w1 lat lng)
        as [[m' [e [_ [He Hrun']]]]|[_ Hrun']];
        rewrite Hrun in Hrun'; inversion Hrun'; subst; clear Hrun'.
      - exists e. split; [|reflexivity]. now apply freshEntry_lookup in He.
      - eexists. split.
        + unfold cachePut, setCache. cbn [predictionCache]. apply lookup_insert_eq.
        + unfold cachedPrediction. cbn [c_score c_confidence].
          now destruct (recomputed st w1 lat lng). }
    destruct Hentry as [e [Hl <-]].
    rewrite (predictSafety_hit st2 w2 lat2 lng2 m2 e); [reflexivity|exact Hm2|].
    rewrite Hkey. apply freshEntry_fresh; [now rewrite Hsame | now apply Hyoung].
  - intros st2 w2 lat2 lng2 e Hl Hold.
    pose proof (freshEntry_expired st2 w2 _ e Hl Hold) as Hnone.
    split; [exact Hnone|]. split.
    + rewrite (predictSafety_miss st2 w2 lat2 lng2) by now right.
      rewrite predictSafety_miss.
      * unfold recomputed, cachePut, setCache.
        cbn [model predictionCache isTraining lastTrainedAt trainingQueue modelLoss
             predictedHotspots lastSampleSize].
        now rewrite insert_delete_eq.
      * right. unfold freshEntry, setCache. cbn [predictionCache].
        now rewrite lookup_delete_eq.
    + rewrite predictSafety_miss by now right. reflexivity.
Qed.


(** *** The training pass *)

(** C8: when the store holds fewer than 10 reports, [trainModel] leaves the
    service as it is: [lastTrainedAt], [modelLoss] and the model are
    unchanged. *)
Theorem trainModel_needs_ten_reports st tw reports :
  findRecent (t_db tw) 10000%N = Returned reports ->
  (length reports < 10)%nat ->
  trainModel st tw = st /\
  lastTrainedAt (trainModel st tw) = lastTrainedAt st /\
  modelLoss (trainModel st tw) = modelLoss st /\
  model (trainModel st tw) = model st.
Proof.
  intros Hfind Hlen.
  assert (Hsame : trainModel st tw = st).
  { unfold trainModel. rewrite Hfind.
    apply Nat.ltb_lt in Hlen. now rewrite Hlen. }
  rewrite Hsame. auto.
Qed.

Lemma trainModel_sched st tw :
  isTraining (trainModel st tw) = isTraining st /\
  trainingQueue (trainModel st tw) = trainingQueue st.
Proof.
  unfold trainModel. destruct (findRecent (t_db tw) 10000%N) as [reports|]; [|auto].
  destruct (length reports <? 10)%nat; [auto|].
  cbn [model setSampleSize]. destruct (model st) as [m|]; [|auto].
  destruct (fit m _) as [m' [losses|msg]]; auto.
Qed.

Lemma setCache_setCache c c' st : setCache c (setCache c' st) = setCache c st.
Proof. reflexivity. Qed.

Lemma setCache_same st : setCache (predictionCache st) st = st.
Proof. now destruct st. Qed.

Lemma hotspotLoop_frame reports worlds :
  forall rest i processed st predictions,
  exists c,
    snd (hotspotLoop reports rest worlds i processed st predictions) = setCache c st.
Proof.
  induction rest as [|r rest IH]; intros i processed st predictions.
  - exists (predictionCache st). cbn [hotspotLoop snd]. now rewrite setCache_same.
  - cbn [hotspotLoop]. case_bool_decide; [apply IH|].
    destruct (3 <=? length (within 2 (r_lat r) (r_lng r) reports))%nat; [|apply IH].
    destruct (predictSafety_frame st (worlds i) (r_lat r) (r_lng r)) as [c Hc].
    destruct (predictSafety st (worlds i) (r_lat r) (r_lng r)) as [[p|msg] st'];
      cbn [snd] in Hc; subst st'.
    + match goal with
      | |- context [hotspotLoop reports rest worlds (S i) ?pr (setCache c st) ?ps] =>
          destruct (IH (S i) pr (setCache c st) ps) as [c' Hc']
      end.
      exists c'. now rewrite Hc', setCache_setCache.
    + exists c. reflexivity.
Qed.

Lemma computeHotspots_frame st hw :
  exists c, snd (computeHotspots st hw) = setCache c st.
Proof.
  unfold computeHotspots.
  destruct (findRecent (hs_db hw) 500%N) as [reports|msg];
    [|exists (predictionCache st); cbn [snd]; now rewrite setCache_same].
  destruct ((length reports <? 20)%nat || negb (bool_decide (is_Some (model st))));
    [exists (predictionCache st); cbn [snd]; now rewrite setCache_same|].
  destruct (hotspotLoop_frame reports (hs_worlds hw) reports 0%nat ∅ st []) as [c Hc].
  destruct (hotspotLoop reports reports (hs_worlds hw) 0 ∅ st []) as [[ps|msg] st'];
    cbn [snd] in Hc |- *; eauto.
Qed.

Lemma identifyHotspots_sched st hw :
  isTraining (identifyHotspots st hw) = isTraining st /\
  trainingQueue (identifyHotspots st hw) = trainingQueue st.
Proof.
  unfold identifyHotspots. destruct (computeHotspots_frame st hw) as [c Hc].
  destruct (computeHotspots st hw) as [[hs|] st']; cbn [snd] in Hc; subst st'; auto.
Qed.

Lemma trainingPass_sched st tw hw :
  isTraining (trainingPass st tw hw) = isTraining st /\
  trainingQueue (trainingPass st tw hw) = trainingQueue st.
Proof.
  unfold trainingPass.
  destruct (identifyHotspots_sched (trainModel st tw) hw) as [-> ->].
  apply trainModel_sched.
Qed.

(** *** The scheduler *)

(** C5, as the code has it: a call of [scheduleTraining()] made while no
    training pass is in flight pushes a trigger, which the pass it starts
    takes at once, and clears the prediction cache, so that what was cached
    before has no part in a later prediction; a call made while a pass is in
    flight changes nothing. *)
Theorem scheduleTraining_clears_cache_when_idle st now :
  (isTraining st = false ->
     snd (scheduleTraining st now) = true /\
     isTraining (fst (scheduleTraining st now)) = true /\
     trainingQueue (fst (scheduleTraining st now)) = [] /\
     predictionCache (fst (scheduleTraining st now)) = ∅ /\
     (forall w lat lng,
         freshEntry (fst (scheduleTraining st now)) w (keyOf 5 lat lng) = None) /\
     (forall c w lat lng,
         predictSafety (fst (scheduleTraining (setCache c st) now)) w lat lng
         = predictSafety (fst (scheduleTraining st now)) w lat lng)) /\
  (isTraining st = true -> scheduleTraining st now = (st, false)).
Proof.
  split.
  - intros Hidle.
    assert (Hrun : forall c, scheduleTraining (setCache c st) now
                   = (setCache ∅ (setSched true [] st), true)).
    { intros c. unfold scheduleTraining, processTrainingQueue_start.
      cbn [isTraining trainingQueue setCache setSched]. rewrite Hidle.
      cbn [orb]. rewrite length_app. cbn [length].
      replace (length (trainingQueue st) + 1 =? 0)%nat with false
        by (symmetry; apply Nat.eqb_neq; lia).
      reflexivity. }
    pose proof (Hrun (predictionCache st)) as Hst. rewrite setCache_same in Hst.
    rewrite Hst. cbn [fst snd]. repeat split.
    + intros c w lat lng. now rewrite Hrun.
  - intros Hbusy. unfold scheduleTraining. now rewrite Hbusy.
Qed.

Lemma scheduleTraining_sched st now :
  trainingQueue st = [] ->
  trainingQueue (fst (scheduleTraining st now)) = [] /\
  count (isTraining (fst (scheduleTraining st now)))
  = (count (isTraining st) + count (snd (scheduleTraining st now)))%nat.
Proof.
  intros Hq. unfold scheduleTraining, processTrainingQueue_start.
  destruct (isTraining st) eqn:Ht; cbn [fst snd].
  - rewrite Ht. cbn [count]. auto.
  - cbn [isTraining trainingQueue setSched]. rewrite Hq. cbn. auto.
Qed.

Lemma initialSystem_singleFlight : singleFlight initialSystem.
Proof. repeat split. Qed.

Lemma step_singleFlight s e s' :
  singleFlight s -> step s e = Some s' -> singleFlight s'.
Proof.
  intros [Hact [Hq Htim]] Hstep. destruct e as [disk now|now|w lat lng|now|tw hw|];
    cbn [step] in Hstep.
  - assert (Hsched : forall st0, isTraining st0 = isTraining (svc s) ->
                       trainingQueue st0 = [] ->
                       singleFlight
                         {| svc := fst (scheduleTraining st0 now);
                            activePasses :=
                              activePasses s + count (snd (scheduleTraining st0 now));
                            pendingTimers := pendingTimers s |}).
    { intros st0 Ht0 Hq0. destruct (scheduleTraining_sched st0 now Hq0) as [Hq' Hc].
      repeat split; cbn [svc activePasses pendingTimers]; auto.
      rewrite Hc, Ht0. lia. }
    unfold initModel in Hstep.
    destruct disk as [[[m [md|]]|]|msg].
    + inversion Hstep; subst. repeat split; cbn; auto. lia.
    + inversion Hstep; subst. repeat split; cbn; auto. lia.
    + specialize (Hsched (setModel (Some createModel) (svc s)) eq_refl Hq).
      destruct (scheduleTraining _ now) as [st started]. now inversion Hstep; subst.
    + specialize (Hsched (setModel (Some createModel) (svc s)) eq_refl Hq).
      destruct (scheduleTraining _ now) as [st started]. now inversion Hstep; subst.
  - destruct (scheduleTraining_sched (svc s) now Hq) as [Hq' Hc].
    destruct (scheduleTraining (svc s) now) as [st started].
    inversion Hstep; subst. cbn [fst snd] in *.
    repeat split; cbn [svc activePasses pendingTimers]; auto. lia.
  - inversion Hstep; subst.
    destruct (predictSafety_frame (svc s) w lat lng) as [c ->].
    repeat split; auto.
  - inversion Hstep; subst. repeat split; auto.
  - destruct (activePasses s) as [|n] eqn:Hn; [discriminate|].
    destruct (trainingPass_sched (svc s) tw hw) as [Ht' Hq'].
    unfold processTrainingQueue_finally in Hstep.
    cbn [trainingQueue setSched] in Hstep. rewrite Hq', Hq in Hstep.
    inversion Hstep; subst.
    destruct (isTraining (svc s)); cbn in Hact; [|discriminate].
    repeat split; cbn [svc activePasses pendingTimers isTraining trainingQueue setSched count];
      auto; lia.
  - rewrite Htim in Hstep. discriminate.
Qed.

Lemma run_singleFlight events :
  forall s s', singleFlight s -> run s events = Some s' -> singleFlight s'.
Proof.
  induction events as [|e events IH]; intros s s' Hs Hrun; cbn [run] in Hrun.
  - now inversion Hrun; subst.
  - destruct (step s e) as [s1|] eqn:Hstep; [|discriminate].
    eapply IH; [|exact Hrun]. eapply step_singleFlight; eauto.
Qed.

(** C6, as the code has it: after any sequence of events at most one
    training pass is active, and one is active exactly when [isTraining] is
    set; a [scheduleTraining()] made while a pass is active changes nothing
    (it starts no pass and queues no trigger), so that the queue is empty
    and no timer is armed whenever the service is observed. *)
Theorem at_most_one_training_pass events s :
  run initialSystem events = Some s ->
  (activePasses s <= 1)%nat /\
  (isTraining (svc s) = true <-> activePasses s = 1%nat) /\
  trainingQueue (svc s) = [] /\
  pendingTimers s = 0%nat /\
  (activePasses s = 1%nat -> forall now, step s (EvSchedule now) = Some s).
Proof.
  intros Hrun.
  destruct (run_singleFlight events _ _ initialSystem_singleFlight Hrun)
    as [Hact [Hq Htim]].
  split; [rewrite Hact; destruct (isTraining (svc s)); cbn; lia|].
  split; [rewrite Hact; destruct (isTraining (svc s)); cbn; split; auto; discriminate|].
  split; [exact Hq|]. split; [exact Htim|].
  intros Hone now. rewrite Hact in Hone.
  destruct (isTraining (svc s)) eqn:Ht; [|discriminate].
  cbn [step]. unfold scheduleTraining. rewrite Ht.
  destruct s as [st a t]. cbn [svc activePasses pendingTimers count] in *.
  now rewrite Nat.add_0_r.
Qed.


(** *** Hotspots *)

Lemma sparse_check reports :
  forallb (fun r => (length (within 2 (r_lat r) (r_lng r) reports) <? 3)%nat) reports
  = true ->
  sparse reports.
Proof.
  intros Hall r Hr. rewrite forallb_forall in Hall.
  apply Nat.ltb_lt, Hall. now apply list_elem_of_In.
Qed.

Lemma insertSorted_elem_of {A : Type} (before : A -> A -> bool) (x h : A) l :
  h ∈ insertSorted before x l -> h = x \/ h ∈ l.
Proof.
  induction l as [|y l IH]; cbn [insertSorted].
  - intros Hin. apply list_elem_of_singleton in Hin. now left.
  - destruct (before x y).
    + intros Hin. apply elem_of_cons in Hin. tauto.
    + intros Hin. apply elem_of_cons in Hin. destruct Hin as [->|Hin].
      * right. apply elem_of_cons. now left.
      * destruct (IH Hin) as [->|Hl]; [now left|].
        right. apply elem_of_cons. now right.
Qed.

Lemma sortBy_elem_of {A : Type} (before : A -> A -> bool) (h : A) l :
  h ∈ sortBy before l -> h ∈ l.
Proof.
  unfold sortBy. induction l as [|x l IH]; cbn [foldr]; [auto|].
  intros Hin. apply insertSorted_elem_of in Hin. apply elem_of_cons.
  destruct Hin as [->|Hin]; [now left | right; auto].
Qed.

Lemma uniqueLoop_elem_of h :
  forall hotspots seenKeys uniqueHotspots,
    h ∈ uniqueLoop hotspots seenKeys uniqueHotspots ->
    h ∈ uniqueHotspots \/ h ∈ hotspots.
Proof.
  induction hotspots as [|x rest IH]; intros seen acc; cbn [uniqueLoop]; [auto|].
  case_bool_decide; intros Hin; apply IH in Hin.
  - destruct Hin; [now left | right; apply elem_of_cons; now right].
  - destruct Hin as [Hin|Hin]; [|right; apply elem_of_cons; now right].
    apply elem_of_app in Hin. destruct Hin as [Hin|Hin]; [now left|].
    apply list_elem_of_singleton in Hin. subst. right. apply elem_of_cons. now left.
Qed.

Lemma selectHotspots_elem_of predictions h :
  h ∈ selectHotspots predictions -> h ∈ predictions.
Proof.
  unfold selectHotspots, sliceLast. intros Hin.
  apply uniqueLoop_elem_of in Hin. destruct Hin as [Hin|Hin].
  - now apply elem_of_nil in Hin.
  - repeat (apply elem_of_app in Hin; destruct Hin as [Hin|Hin]).
    + apply subseteq_take in Hin. now apply sortBy_elem_of in Hin.
    + apply elem_of_reverse, subseteq_drop in Hin. now apply sortBy_elem_of in Hin.
    + apply subseteq_take in Hin. now apply sortBy_elem_of in Hin.
Qed.

Lemma hotspotLoop_qualifies reports worlds :
  forall rest i processed st predictions res st',
    rest ⊆ reports ->
    Forall (qualifies reports) predictions ->
    hotspotLoop reports rest worlds i processed st predictions = (Returned res, st') ->
    Forall (qualifies reports) res.
Proof.
  induction rest as [|r rest IH]; intros i processed st predictions res st' Hsub Hall Hrun;
    cbn [hotspotLoop] in Hrun.
  - now inversion Hrun; subst.
  - assert (Hrest : rest ⊆ reports).
    { intros x Hx. apply Hsub, elem_of_cons. now right. }
    case_bool_decide; [eapply IH; eauto|].
    destruct (3 <=? length (within 2 (r_lat r) (r_lng r) reports))%nat eqn:Ecount;
      [|eapply IH; eauto].
    destruct (predictSafety st (worlds i) (r_lat r) (r_lng r)) as [[p|msg] st1];
      [|discriminate].
    eapply IH; [exact Hrest| |exact Hrun].
    apply Forall_app. split; [exact Hall|].
    constructor; [|constructor]. unfold qualifies.
    cbn [reportCount h_lat h_lng]. split; [reflexivity|]. split.
    + now apply Nat.leb_le.
    + exists r. split; [|auto]. apply Hsub, elem_of_cons. now left.
Qed.

Lemma qualifies_not_sparse reports h : sparse reports -> qualifies reports h -> False.
Proof.
  intros Hsparse [Hcount [Hthree [r [Hr [Hlat Hlng]]]]].
  specialize (Hsparse r Hr). rewrite <- Hlat, <- Hlng, <- Hcount in Hsparse. lia.
Qed.

Lemma computeHotspots_qualifies st hw reports hs st' :
  findRecent (hs_db hw) 500%N = Returned reports ->
  computeHotspots st hw = (Some hs, st') ->
  Forall (qualifies reports) hs.
Proof.
  intros Hfind Hrun. unfold computeHotspots in Hrun. rewrite Hfind in Hrun.
  destruct ((length reports <? 20)%nat || negb (bool_decide (is_Some (model st))));
    [discriminate|].
  destruct (hotspotLoop reports reports (hs_worlds hw) 0 ∅ st []) as [[ps|msg] st1] eqn:E;
    [|discriminate].
  inversion Hrun; subst; clear Hrun.
  apply hotspotLoop_qualifies in E; [|reflexivity|constructor].
  apply Forall_forall. intros h Hh. apply selectHotspots_elem_of in Hh.
  rewrite Forall_forall in E. auto.
Qed.

(** C9: the hotspots a run of [identifyHotspots] computes stand each on a
    place with at least 3 fetched reports within 2 km; when no place has 3
    reports within 2 km the run computes no hotspot, and the hotspot set is
    empty afterwards unless the run left the earlier set in place. *)
Theorem hotspots_need_three_reports st hw reports :
  findRecent (hs_db hw) 500%N = Returned reports ->
  (forall hs st',
      computeHotspots st hw = (Some hs, st') -> Forall (qualifies reports) hs) /\
  (predictedHotspots (identifyHotspots st hw) = predictedHotspots st \/
   Forall (qualifies reports) (predictedHotspots (identifyHotspots st hw))) /\
  (sparse reports ->
     (forall hs st', computeHotspots st hw = (Some hs, st') -> hs = []) /\
     (predictedHotspots (identifyHotspots st hw) = [] \/
      predictedHotspots (identifyHotspots st hw) = predictedHotspots st)).
Proof.
  intros Hfind.
  assert (Hstate : forall (P : list Hotspot -> Prop),
             (forall hs st', computeHotspots st hw = (Some hs, st') -> P hs) ->
             P (predictedHotspots (identifyHotspots st hw)) \/
             predictedHotspots (identifyHotspots st hw) = predictedHotspots st).
  { intros P HP. unfold identifyHotspots.
    destruct (computeHotspots_frame st hw) as [c Hc].
    destruct (computeHotspots st hw) as [[hs|] st'] eqn:E; cbn [snd] in Hc; subst st'.
    - left. cbn [predictedHotspots setHotspots]. now apply (HP hs (setCache c st)).
    - right. reflexivity. }
  assert (Hq : forall hs st',
             computeHotspots st hw = (Some hs, st') -> Forall (qualifies reports) hs).
  { intros hs st' Hrun. now apply computeHotspots_qualifies with st hw st'. }
  split; [exact Hq|]. split.
  - destruct (Hstate _ Hq); auto.
  - intros Hsparse.
    assert (Hnil : forall hs st', computeHotspots st hw = (Some hs, st') -> hs = []).
    { intros hs st' Hrun. specialize (Hq hs st' Hrun).
      destruct hs as [|h hs]; [reflexivity|].
      inversion Hq; subst. exfalso. eapply qualifies_not_sparse; eauto. }
    split; [exact Hnil|]. apply (Hstate (fun hs => hs = []) Hnil).
Qed.


End ServiceFacts.

(** ** Further properties of the model service *)

Section ShuffleFacts.

Lemma insert_moves_head {A : Type} (a b : A) (l : list A) (j : nat) :
  l !! j = Some b -> a :: l ≡ₚ b :: <[j := a]> l.
Proof.
  revert j. induction l as [|x l IH]; intros j Hj; [discriminate|].
  destruct j as [|j]; cbn in Hj |- *.
  - inversion Hj; subst. apply Permutation_swap.
  - transitivity (x :: a :: l); [apply Permutation_swap|].
    transitivity (x :: b :: <[j := a]> l); [|apply Permutation_swap].
    apply Permutation_skip, IH, Hj.
Qed.

Lemma swapAt_permutation {A : Type} (i j : nat) (l : list A) : swapAt i j l ≡ₚ l.
Proof.
  unfold swapAt.
  destruct (l !! i) as [a|] eqn:Hi; [|reflexivity].
  destruct (l !! j) as [b|] eqn:Hj; [|reflexivity].
  revert i j Hi Hj. induction l as [|x l IH]; intros i j Hi Hj; [discriminate|].
  destruct i as [|i], j as [|j]; cbn in Hi, Hj |- *.
  - inversion Hi; inversion Hj; subst. reflexivity.
  - inversion Hi; subst. symmetry. now apply insert_moves_head.
  - inversion Hj; subst. symmetry. now apply insert_moves_head.
  - now rewrite (IH i j Hi Hj).
Qed.

Lemma swapAt_length {A : Type} (i j : nat) (l : list A) :
  length (swapAt i j l) = length l.
Proof. apply Permutation_length, swapAt_permutation. Qed.

Lemma shuffleLoop_permutation {A : Type} (rnd : nat -> Q) :
  forall i k (result : list A), shuffleLoop rnd k i result ≡ₚ result.
Proof.
  induction i as [|i IH]; intros k result; cbn [shuffleLoop]; [reflexivity|].
  rewrite IH. apply swapAt_permutation.
Qed.

Lemma drawn_index_in_range (rnd : nat -> Q) k i :
  unitDraws rnd ->
  (Z.to_nat (Qfloor (rnd k * ofNat (i + 1))) <= i)%nat.
Proof.
  intros Hrnd. destruct (Hrnd k) as [H0 H1].
  assert (Hn : 0 < ofNat (i + 1)) by (apply ofNat_pos; lia).
  assert (Hlo : (0 <= Qfloor (rnd k * ofNat (i + 1)))%Z).
  { change 0%Z with (Qfloor 0). apply Qfloor_resp_le. nra. }
  assert (Hhi : (Qfloor (rnd k * ofNat (i + 1)) < Z.of_nat (i + 1))%Z).
  { rewrite Zlt_Qlt. eapply Qle_lt_trans; [apply Qfloor_le|].
    fold (ofNat (i + 1)). nra. }
  lia.
Qed.

(** X1: [shuffleArray] returns a permutation of its argument, and with
    random numbers in [0, 1) the index it draws for position [i] is at most
    [i], so that it never writes past the end of the array. *)
Theorem shuffleArray_permutes {A : Type} (rnd : nat -> Q) (array : list A) :
  unitDraws rnd ->
  shuffleArray rnd array ≡ₚ array /\
  length (shuffleArray rnd array) = length array /\
  (forall k i, (Z.to_nat (Qfloor (rnd k * ofNat (i + 1))) <= i)%nat).
Proof.
  intros Hrnd.
  assert (Hperm : shuffleArray rnd array ≡ₚ array)
    by (unfold shuffleArray; apply shuffleLoop_permutation).
  split; [exact Hperm|]. split; [now apply Permutation_length|].
  intros k i. now apply drawn_index_in_range.
Qed.

End ShuffleFacts.

Section GeometryFacts.
Context `{Runtime}.

(** X2: the great-circle distance is symmetric and is 0 from a point to
    itself, for a runtime whose sine is odd and whose functions respect the
    equality of rationals. *)
Theorem calculateDistance_symmetric lat1 lon1 lat2 lon2 :
  haversineLaws ->
  calculateDistance lat1 lon1 lat2 lon2 == calculateDistance lat2 lon2 lat1 lon1 /\
  calculateDistance lat1 lon1 lat1 lon1 == 0.
Proof.
  intros [Hodd [Hsqrt [Hatan [Hsqrt0 Hatan0]]]].
  assert (Hsq : forall x y, x == - y -> Math_sin x * Math_sin x == Math_sin y * Math_sin y).
  { intros x y Hxy. rewrite (Hodd x y Hxy). ring. }
  assert (Hzero : forall x, x == 0 -> Math_sin x == 0).
  { intros x Hx. assert (H0 : Math_sin x == - Math_sin x).
    { apply Hodd. rewrite Hx. reflexivity. }
    lra. }
  unfold calculateDistance. split.
  - apply Qmult_comp; [reflexivity|]. apply Qmult_comp; [reflexivity|].
    assert (Ha :
      Math_sin ((lat2 - lat1) * (Math_PI / 180) / 2) *
      Math_sin ((lat2 - lat1) * (Math_PI / 180) / 2) +
      Math_cos (lat1 * (Math_PI / 180)) * Math_cos (lat2 * (Math_PI / 180)) *
      Math_sin ((lon2 - lon1) * (Math_PI / 180) / 2) *
      Math_sin ((lon2 - lon1) * (Math_PI / 180) / 2)
      ==
      Math_sin ((lat1 - lat2) * (Math_PI / 180) / 2) *
      Math_sin ((lat1 - lat2) * (Math_PI / 180) / 2) +
      Math_cos (lat2 * (Math_PI / 180)) * Math_cos (lat1 * (Math_PI / 180)) *
      Math_sin ((lon1 - lon2) * (Math_PI / 180) / 2) *
      Math_sin ((lon1 - lon2) * (Math_PI / 180) / 2)).
    { pose proof (Hsq ((lat2 - lat1) * (Math_PI / 180) / 2)
                      ((lat1 - lat2) * (Math_PI / 180) / 2)) as H1.
      pose proof (Hsq ((lon2 - lon1) * (Math_PI / 180) / 2)
                      ((lon1 - lon2) * (Math_PI / 180) / 2)) as H2.
      assert (E1 : (lat2 - lat1) * (Math_PI / 180) / 2
                   == - ((lat1 - lat2) * (Math_PI / 180) / 2))
        by (unfold Qdiv; ring).
      assert (E2 : (lon2 - lon1) * (Math_PI / 180) / 2
                   == - ((lon1 - lon2) * (Math_PI / 180) / 2))
        by (unfold Qdiv; ring).
      specialize (H1 E1). specialize (H2 E2).
      rewrite H1. rewrite <- !Qmult_assoc. rewrite H2. ring. }
    apply Hatan; apply Hsqrt; [exact Ha|]. now rewrite Ha.
  - assert (Ha :
      Math_sin ((lat1 - lat1) * (Math_PI / 180) / 2) *
      Math_sin ((lat1 - lat1) * (Math_PI / 180) / 2) +
      Math_cos (lat1 * (Math_PI / 180)) * Math_cos (lat1 * (Math_PI / 180)) *
      Math_sin ((lon1 - lon1) * (Math_PI / 180) / 2) *
      Math_sin ((lon1 - lon1) * (Math_PI / 180) / 2) == 0).
    { rewrite (Hzero ((lat1 - lat1) * (Math_PI / 180) / 2)) by (unfold Qdiv; ring).
      rewrite (Hzero ((lon1 - lon1) * (Math_PI / 180) / 2)) by (unfold Qdiv; ring).
      ring. }
    rewrite (Hatan _ _ 0 (Math_sqrt 1)).
    + rewrite Hatan0. ring.
    + rewrite (Hsqrt _ 0 Ha). exact Hsqrt0.
    + apply Hsqrt. rewrite Ha. ring.
Qed.

(** X3: [getMidPoints] returns [count] points; the point of index [i] is
    the point at the fraction [i / (count + 1)] of the chord moved sideways:
    its offset from the chord is perpendicular to the chord, and no longer
    than one ten-thousandth of the chord in each coordinate when the sine is
    bounded by 1. *)
Theorem getMidPoints_bow lat1 lng1 lat2 lng2 count :
  boundedTrig ->
  length (getMidPoints lat1 lng1 lat2 lng2 count) = count /\
  forall k m,
    getMidPoints lat1 lng1 lat2 lng2 count !! k = Some m ->
    let fraction := ofNat (S k) / ofNat (count + 1) in
    let off_lat := p_lat m - (lat1 + fraction * (lat2 - lat1)) in
    let off_lng := p_lng m - (lng1 + fraction * (lng2 - lng1)) in
    off_lat * (lat2 - lat1) + off_lng * (lng2 - lng1) == 0 /\
    Qabs off_lat <= (1 # 10000) * Qabs (lng2 - lng1) /\
    Qabs off_lng <= (1 # 10000) * Qabs (lat2 - lat1).
Proof.
  intros Hb. split; [apply getMidPoints_length|].
  intros k m Hk. unfold getMidPoints in Hk.
  rewrite list_lookup_fmap in Hk.
  destruct (seq 1 count !! k) as [i|] eqn:Hi; [|discriminate].
  apply lookup_seq in Hi. destruct Hi as [-> _].
  cbn in Hk. inversion Hk; subst; clear Hk.
  cbn zeta. unfold midPoint. cbn [p_lat p_lng].
  change (1 + k)%nat with (S k).
  set (f := ofNat (S k) / ofNat (count + 1)).
  destruct (Hb (f * Math_PI)) as [[Hs0 Hs1] _].
  set (sn := Math_sin (f * Math_PI)) in *.
  assert (Habs : Qabs sn <= 1) by (apply Qabs_Qle_condition; split; lra).
  assert (Hp : 0 <= 1 # 10000) by discriminate.
  split; [ring|]. split.
  - setoid_replace (lat1 + f * (lat2 - lat1) + sn * (1 # 10000) * (lng2 - lng1)
                    - (lat1 + f * (lat2 - lat1)))
      with ((1 # 10000) * (sn * (lng2 - lng1))) using relation Qeq by ring.
    rewrite Qabs_Qmult, Qabs_Qmult. rewrite (Qabs_pos (1 # 10000)) by exact Hp.
    pose proof (Qabs_nonneg (lng2 - lng1)). nra.
  - setoid_replace (lng1 + f * (lng2 - lng1) - sn * (1 # 10000) * (lat2 - lat1)
                    - (lng1 + f * (lng2 - lng1)))
      with ((1 # 10000) * (- sn * (lat2 - lat1))) using relation Qeq by ring.
    rewrite Qabs_Qmult, Qabs_Qmult, Qabs_opp. rewrite (Qabs_pos (1 # 10000)) by exact Hp.
    pose proof (Qabs_nonneg (lat2 - lat1)). nra.
Qed.

End GeometryFacts.

(** ** Further properties of the controller *)

Section RouteFacts.
Context `{Runtime}.

(** X4: [generateRoutePoints] returns [count] points, and with random
    numbers in [0, 1) and a cosine bounded by 1 the latitude of each is
    within [1.3 distanceKm / 6371] radians, in degrees, of the latitude of
    the origin. *)
Theorem generateRoutePoints_near_origin rnd lat lng count distanceKm :
  unitDraws rnd -> boundedTrig -> 0 < Math_PI -> 0 <= distanceKm ->
  length (generateRoutePoints rnd lat lng count distanceKm) = count /\
  forall pt,
    pt ∈ generateRoutePoints rnd lat lng count distanceKm ->
    Qabs (p_lat pt - lat) <= (13 # 10) * distanceKm / 6371 * (180 / Math_PI).
Proof.
  intros Hrnd Hb Hpi Hd. split; [apply generateRoutePoints_length|].
  intros pt Hin. unfold generateRoutePoints in Hin.
  apply list_elem_of_fmap in Hin. destruct Hin as [i [-> _]].
  unfold routePoint. cbn [p_lat].
  destruct (Hrnd (2 * i)%nat) as [Hr0 Hr1].
  set (r := rnd (2 * i)%nat) in *.
  match goal with
  | |- context [Math_cos ?a] => destruct (Hb a) as [_ [Hc0 Hc1]]; set (c := Math_cos a) in *
  end.
  assert (HK : 0 < 180 / Math_PI) by (apply Qlt_shift_div_l; lra).
  set (K := 180 / Math_PI) in *.
  apply Qabs_Qle_condition.
  assert (Hv0 : 0 <= distanceKm * ((7 # 10) + r * (6 # 10)) / 6371 * K).
  { apply Qmult_le_0_compat; [|lra]. apply div_nonneg; [nra | reflexivity]. }
  assert (Hv1 : distanceKm * ((7 # 10) + r * (6 # 10)) / 6371 * K
                <= (13 # 10) * distanceKm / 6371 * K).
  { apply Qmult_le_compat_r; [|lra]. unfold Qdiv.
    apply Qmult_le_compat_r; [nra | discriminate]. }
  set (u := distanceKm * ((7 # 10) + r * (6 # 10)) / 6371 * K) in *.
  setoid_replace (lat + distanceKm * ((7 # 10) + r * (6 # 10)) / 6371 * c * K - lat)
    with (u * c) using relation Qeq by (unfold u; ring).
  split; nra.
Qed.

Lemma scoreMidPoints_incidents rw i :
  forall midPoints j total inc r,
    scoreMidPoints rw i j midPoints total inc = Returned r ->
    snd r = (inc + sum_list (imap (fun k => unsafeNearby rw i (j + k)) midPoints))%nat.
Proof.
  induction midPoints as [|m rest IH]; intros j total inc r Hrun.
  - cbn in Hrun. inversion Hrun; subst. cbn. lia.
  - cbn [scoreMidPoints] in Hrun.
    destruct (rw_findNearby rw i j (p_lat m) (p_lng m) (2 # 10)) as [found|msg] eqn:E;
      cbn [obind] in Hrun; [|discriminate].
    apply IH in Hrun. rewrite Hrun. rewrite imap_cons. cbn [sum_list foldr].
    unfold unsafeNearby at 2. rewrite Nat.add_0_r, E.
    rewrite (imap_ext (fun k => unsafeNearby rw i (S j + k))
                      ((fun k => unsafeNearby rw i (j + k)) ∘ S)).
    + cbn. lia.
    + intros k x _. cbn. f_equal. lia.
Qed.

Lemma scoreLegs_records rw lat lng :
  forall routePoints i routes routes',
    scoreLegs rw lat lng i routePoints routes = Returned routes' ->
    exists new,
      routes' = routes ++ new /\
      length new = length routePoints /\
      forall k r,
        new !! k = Some r ->
        exists pt res,
          routePoints !! k = Some pt /\
          scoreMidPoints rw (i + k) 0
            (getMidPoints lat lng (p_lat pt) (p_lng pt) 3) (VNum 0) 0 = Returned res /\
          r = legRecord lat lng pt res.
Proof.
  induction routePoints as [|pt rest IH]; intros i routes routes' Hrun.
  - cbn in Hrun. inversion Hrun; subst. exists []. rewrite app_nil_r.
    repeat split; auto. intros k r Hk. discriminate.
  - cbn [scoreLegs] in Hrun.
    destruct (scoreMidPoints rw i 0 (getMidPoints lat lng (p_lat pt) (p_lng pt) 3)
                (VNum 0) 0) as [res|msg] eqn:E; cbn [obind] in Hrun; [|discriminate].
    apply IH in Hrun. destruct Hrun as [new [-> [Hlen Hnew]]].
    exists (legRecord lat lng pt res :: new). split; [|split].
    + rewrite <- app_assoc. reflexivity.
    + cbn. now rewrite Hlen.
    + intros [|k] r Hk; cbn in Hk.
      * inversion Hk; subst. exists pt, res. rewrite Nat.add_0_r. auto.
      * destruct (Hnew k r Hk) as [pt' [res' [Hpt [Hres ->]]]].
        exists pt', res'. replace (i + S k)%nat with (S i + k)%nat by lia. auto.
Qed.

(** X5: in a response of [getSafeRoutes] with route records, the record of
    index [k] starts at the origin, ends at the candidate point of index
    [k], and counts as incidents the reports of type unsafe, incident or
    suspicious that the store found within 0.2 km of the three midpoints of
    its leg, whatever the predictions were. *)
Theorem getSafeRoutes_legs rw lat lng routes :
  ~ lat == 0 -> ~ lng == 0 ->
  getSafeRoutes rw (ParsedObject (CNum lat) (CNum lng))
    = Returned {| status := 200; json := RoutesBody routes |} ->
  length routes = 8%nat /\
  forall k r,
    routes !! k = Some r ->
    start r = {| p_lat := lat; p_lng := lng |} /\
    generateRoutePoints (rw_random rw) lat lng 8 1 !! k = Some (end_ r) /\
    incidents r
    = incidentsAlong rw k
        (getMidPoints lat lng (p_lat (end_ r)) (p_lng (end_ r)) 3).
Proof.
  intros Hlat Hlng Hresp. rewrite getSafeRoutes_nonzero in Hresp by assumption.
  destruct (scoreLegs rw lat lng 0 _ []) as [routes0|msg] eqn:E; [|discriminate].
  assert (routes0 = routes) as -> by (inversion Hresp; reflexivity).
  apply scoreLegs_records in E. destruct E as [new [Heq [Hlen Hnew]]].
  cbn in Heq. subst new. split.
  - rewrite Hlen. apply generateRoutePoints_length.
  - intros k r Hk. destruct (Hnew k r Hk) as [pt [res [Hpt [Hres ->]]]].
    unfold legRecord. cbn [start end_ incidents].
    split; [reflexivity|]. split; [exact Hpt|].
    apply scoreMidPoints_incidents in Hres. rewrite Hres. reflexivity.
Qed.


(** X7: for a location with non-zero coordinates [getReports] answers what
    the store finds, status 200, and the 500 error with the message of the
    store when the store raises; a radius that is missing, not a number or 0
    is taken as 1. *)
Theorem getReports_passes_store_answer nearby lat lng radius :
  ~ lat == 0 -> ~ lng == 0 ->
  let r := match radius with
           | Some r => if Qeq_bool r 0 then 1 else r
           | None => 1
           end in
  (forall reports,
      nearby lat lng r = Returned reports ->
      getReports nearby (ParsedObject (CNum lat) (CNum lng)) radius
      = Returned {| status := 200; json := ReportsBody reports |}) /\
  (forall msg,
      nearby lat lng r = Thrown msg ->
      getReports nearby (ParsedObject (CNum lat) (CNum lng)) radius
      = Returned (serverError msg)) /\
  getReports nearby (ParsedObject (CNum lat) (CNum lng)) None
  = getReports nearby (ParsedObject (CNum lat) (CNum lng)) (Some 1) /\
  getReports nearby (ParsedObject (CNum lat) (CNum lng)) (Some 0)
  = getReports nearby (ParsedObject (CNum lat) (CNum lng)) (Some 1).
Proof.
  intros Hlat Hlng r. unfold getReports, getReports_try.
  rewrite (falsy_nonzero lat Hlat), (falsy_nonzero lng Hlng). cbn [orb].
  fold r. repeat split.
  - intros reports ->. reflexivity.
  - intros msg ->. reflexivity.
Qed.

End RouteFacts.

(** ** Further properties of the model service: predictions and the cache *)

Section CacheFacts.
Context `{Runtime} `{ReportStore} `{Regressor}.

(** X8: a call of [predictSafety] never throws; it leaves in the cache,
    under the key of its coordinate, the prediction it returns, and it
    changes no other cache entry and nothing else of the service. *)
Theorem predictSafety_caches_its_answer st w lat lng :
  exists p,
    fst (predictSafety st w lat lng) = Returned p /\
    (exists e,
        predictionCache (snd (predictSafety st w lat lng)) !! keyOf 5 lat lng = Some e /\
        cachedPrediction e = p) /\
    (forall key,
        key <> keyOf 5 lat lng ->
        predictionCache (snd (predictSafety st w lat lng)) !! key
        = predictionCache st !! key) /\
    snd (predictSafety st w lat lng)
    = setCache (predictionCache (snd (predictSafety st w lat lng))) st.
Proof.
  destruct (predictSafety_cases st w lat lng) as [[m [e [_ [He ->]]]]|[_ ->]];
    cbn [fst snd].
  - exists (cachedPrediction e). split; [reflexivity|]. split; [|split].
    + exists e. split; [|reflexivity]. now apply freshEntry_lookup in He.
    + reflexivity.
    + now rewrite setCache_same.
  - eexists. split; [reflexivity|]. split; [|split].
    + eexists. split; [apply lookup_insert_eq|].
      unfold cachedPrediction. cbn [c_score c_confidence].
      now destruct (recomputed st w lat lng).
    + intros key Hkey. unfold cachePut, setCache. cbn [predictionCache].
      now rewrite lookup_insert_ne.
    + reflexivity.
Qed.

Lemma recomputed_setCache c st w lat lng :
  recomputed (setCache c st) w lat lng = recomputed st w lat lng.
Proof. reflexivity. Qed.

Lemma cleanupCache_lookup st now key e :
  predictionCache (cleanupCache st now) !! key = Some e <->
  predictionCache st !! key = Some e /\ (now - cacheTTL <= c_timestamp e)%Z.
Proof.
  unfold cleanupCache, setCache. cbn [predictionCache].
  rewrite map_lookup_filter_Some. cbn [snd]. split; intros [Hl Ht]; (split; [exact Hl|]); lia.
Qed.

(** X9: [cleanupCache] removes exactly the entries older than 5 minutes,
    and a prediction asked at or after the time of the cleanup is answered
    as it would have been without the cleanup. *)
Theorem cleanupCache_is_transparent st now :
  (forall key e,
      predictionCache (cleanupCache st now) !! key = Some e <->
      predictionCache st !! key = Some e /\ (now - cacheTTL <= c_timestamp e)%Z) /\
  (forall w lat lng,
      (now <= now_check w)%Z ->
      fst (predictSafety (cleanupCache st now) w lat lng)
      = fst (predictSafety st w lat lng)).
Proof.
  split; [apply cleanupCache_lookup|].
  intros w lat lng Hnow.
  assert (Hfresh : freshEntry (cleanupCache st now) w (keyOf 5 lat lng)
                   = freshEntry st w (keyOf 5 lat lng)).
  { unfold freshEntry at 2.
    destruct (predictionCache st !! keyOf 5 lat lng) as [e|] eqn:Hl.
    - destruct (now_check w - cacheTTL <? c_timestamp e)%Z eqn:Et.
      + apply Z.ltb_lt in Et. apply freshEntry_fresh; [|exact Et].
        apply cleanupCache_lookup. split; [exact Hl | lia].
      + apply Z.ltb_ge in Et. unfold freshEntry.
        destruct (predictionCache (cleanupCache st now) !! keyOf 5 lat lng) as [e'|] eqn:Hl';
          [|reflexivity].
        apply cleanupCache_lookup in Hl'. destruct Hl' as [Hl' _].
        rewrite Hl in Hl'. inversion Hl'; subst.
        apply Z.ltb_ge in Et. now rewrite Et.
    - unfold freshEntry.
      destruct (predictionCache (cleanupCache st now) !! keyOf 5 lat lng) as [e'|] eqn:Hl';
        [|reflexivity].
      apply cleanupCache_lookup in Hl'. destruct Hl' as [Hl' _]. congruence. }
  unfold predictSafety, cleanupCache at 1. cbn [model setCache].
  destruct (model st) as [m|]; [|reflexivity].
  rewrite Hfresh.
  destruct (freshEntry st w (keyOf 5 lat lng)); [reflexivity|].
  destruct (predictSafety_try m w lat lng); reflexivity.
Qed.

(** X10: with a sine and a cosine bounded by 1 and a random number in
    [0, 1), the heuristic score is within 0.25 of the base score of the
    hour: it is at least 0.25 at any hour, and at most 0.75 at night (from
    22h to 5h). *)
Theorem getHeuristicSafety_by_hour w lat lng :
  boundedTrig -> 0 <= random w -> random w < 1 ->
  25 # 100 <= getHeuristicSafety w lat lng /\
  getHeuristicSafety w lat lng <= 9 # 10 /\
  (nightHour (getHours (now_heur w)) = true ->
     getHeuristicSafety w lat lng <= 75 # 100).
Proof.
  intros Hb Hr0 Hr1. unfold getHeuristicSafety.
  destruct (Hb (lat * 10)) as [[Hs0 Hs1] _].
  destruct (Hb (lng * 10)) as [_ [Hc0 Hc1]].
  set (sn := Math_sin (lat * 10)) in *. set (cs := Math_cos (lng * 10)) in *.
  set (hour := getHours (now_heur w)).
  assert (Hbase :
    exists base,
      (if nightHour hour then 5 # 10
       else if (18 <=? hour)%Z && (hour <? 22)%Z then 6 # 10
       else if (5 <? hour)%Z && (hour <? 8)%Z then 65 # 100
       else 7 # 10) = base /\
      5 # 10 <= base /\ base <= 7 # 10 /\
      (nightHour hour = true -> base = 5 # 10)).
  { destruct (nightHour hour); [eexists; repeat split; discriminate|].
    destruct ((18 <=? hour)%Z && (hour <? 22)%Z);
      [eexists; repeat split; discriminate|].
    destruct ((5 <? hour)%Z && (hour <? 8)%Z); eexists; repeat split; discriminate. }
  destruct Hbase as [base [-> [Hb0 [Hb1 Hnight]]]].
  set (x := base + (sn * (1 # 10) + cs * (1 # 10)) + (random w * (1 # 10) - (5 # 100))).
  assert (Hx0 : base - (25 # 100) <= x) by (unfold x; lra).
  assert (Hx1 : x <= base + (25 # 100)) by (unfold x; lra).
  split; [|split].
  - apply Q.max_le_iff. right. apply Q.min_glb; lra.
  - apply clamp_range.
  - intros Hn. rewrite (Hnight Hn) in Hx0, Hx1.
    apply Q.max_lub; [discriminate|].
    eapply Qle_trans; [apply Q.le_min_r|]. lra.
Qed.

End CacheFacts.

(** ** Further properties of the model service: training *)

Lemma Qmax_between c x lo hi :
  lo <= c -> c <= hi -> x <= hi -> lo <= Qmax c x /\ Qmax c x <= hi.
Proof.
  intros H1 H2 H3. split.
  - eapply Qle_trans; [exact H1 | apply Q.le_max_l].
  - now apply Q.max_lub.
Qed.

Lemma Qmin_between c x lo hi :
  lo <= c -> c <= hi -> lo <= x -> lo <= Qmin c x /\ Qmin c x <= hi.
Proof.
  intros H1 H2 H3. split.
  - now apply Q.min_glb.
  - eapply Qle_trans; [apply Q.le_min_l | exact H2].
Qed.

Lemma ofNat_le n m : (n <= m)%nat -> ofNat n <= ofNat m.
Proof. intros Hnm. unfold ofNat. rewrite <- Zle_Qle. lia. Qed.

Lemma ratio_range (k n : nat) :
  (k <= n)%nat ->
  0 <= ofNat k / Qmax 1 (ofNat n) /\ ofNat k / Qmax 1 (ofNat n) <= 1.
Proof.
  intros Hkn.
  assert (H1 : 1 <= Qmax 1 (ofNat n)) by apply Q.le_max_l.
  assert (Hn : ofNat n <= Qmax 1 (ofNat n)) by apply Q.le_max_r.
  split.
  - apply div_nonneg; [apply ofNat_nonneg | lra].
  - apply Qle_shift_div_r; [lra|]. pose proof (ofNat_le k n Hkn). lra.
Qed.

Section TrainingFacts.
Context `{Runtime} `{ReportStore} `{Regressor}.

(** X11: the sample [trainModel] builds for a report of severity 0 or more
    that is not dated after the training has 8 features and a label between
    0.05 and 0.9. *)
Theorem trainingSample_range reports now r :
  0 <= r_severity r -> (r_timestamp r <= now)%Z ->
  length (fst (trainingSample reports now r)) = 8%nat /\
  5 # 100 <= snd (trainingSample reports now r) /\
  snd (trainingSample reports now r) <= 9 # 10.
Proof.
  intros Hsev Hpast. unfold trainingSample. cbn [fst snd]. split; [reflexivity|].
  set (nearby := List.filter _ reports).
  destruct (ratio_range
              (length (List.filter (fun nr => isUnsafeKind (r_type nr)) nearby))
              (length nearby) (filter_length_le _ _)) as [Hr0 Hr1].
  set (ratio := ofNat (length (List.filter (fun nr => isUnsafeKind (r_type nr)) nearby))
                / Qmax 1 (ofNat (length nearby))) in *.
  assert (Hdays : 0 <= ofZ (now - r_timestamp r) / msPerDay).
  { apply div_nonneg; [|reflexivity].
    unfold ofZ. change 0 with (inject_Z 0). rewrite <- Zle_Qle. lia. }
  destruct (recencyFactor_range _ Hdays) as [Hrec0 Hrec1].
  set (rec := Qmax (5 # 10) (1 - ofZ (now - r_timestamp r) / msPerDay / 30)) in *.
  assert (Hs10 : 0 <= r_severity r / 10) by (apply div_nonneg; [exact Hsev | reflexivity]).
  assert (Hs20 : 0 <= r_severity r / 20) by (apply div_nonneg; [exact Hsev | reflexivity]).
  assert (Hq5 : 0 <= ratio / 5 /\ ratio / 5 <= 2 # 10).
  { split; [apply div_nonneg; [exact Hr0 | reflexivity]|].
    apply Qle_shift_div_r; [reflexivity | lra]. }
  assert (Hq10 : 0 <= ratio / 10) by (apply div_nonneg; [exact Hr0 | reflexivity]).
  assert (Hbase :
    exists base,
      (if isIncidentKind (r_type r)
       then Qmax (1 # 10) ((5 # 10) - r_severity r / 10 - ratio / 5)
       else if String.eqb (r_type r) "safe"
       then Qmin (9 # 10) ((5 # 10) + r_severity r / 10 - ratio / 5)
       else if String.eqb (r_type r) "suspicious"
       then Qmax (2 # 10) ((5 # 10) - r_severity r / 20 - ratio / 10)
       else 5 # 10) = base /\ 1 # 10 <= base /\ base <= 9 # 10).
  { destruct (isIncidentKind (r_type r)).
    { eexists. split; [reflexivity|]. apply Qmax_between; lra. }
    destruct (String.eqb (r_type r) "safe").
    { eexists. split; [reflexivity|]. apply Qmin_between; lra. }
    destruct (String.eqb (r_type r) "suspicious").
    { eexists. split; [reflexivity|]. apply Qmax_between; lra. }
    eexists. split; [reflexivity|]. split; discriminate. }
  destruct Hbase as [base [-> [Hb0 Hb1]]].
  assert (Hprod : 5 # 100 <= base * rec /\ base * rec <= 9 # 10) by (split; nra).
  destruct (nightHour (getHours (r_timestamp r))); [|exact Hprod].
  apply Qmax_between; lra.
Qed.

Lemma trainModel_frame st tw :
  predictionCache (trainModel st tw) = predictionCache st /\
  predictedHotspots (trainModel st tw) = predictedHotspots st.
Proof.
  unfold trainModel. destruct (findRecent (t_db tw) 10000%N) as [reports|]; [|auto].
  destruct (length reports <? 10)%nat; [auto|].
  cbn [model setSampleSize]. destruct (model st) as [m|]; [|auto].
  destruct (fit m _) as [m' [losses|msg]]; auto.
Qed.

(** X12: with 10 reports or more and a model, [trainModel] fits the model
    on one sample per report, in some order, and records the number of
    reports; when the fit returns it records the time and the loss of the
    last epoch, and when the fit throws it leaves the time and the loss of
    the training before, the number of reports staying recorded.  It never
    touches the cache, the hotspots or the scheduler. *)
Theorem trainModel_outcomes st tw reports m :
  findRecent (t_db tw) 10000%N = Returned reports ->
  (10 <= length reports)%nat ->
  model st = Some m ->
  unitDraws (t_random tw) ->
  exists data m' history,
    data ≡ₚ map (trainingSample reports (t_now tw)) reports /\
    fit m data = (m', history) /\
    model (trainModel st tw) = Some m' /\
    lastSampleSize (trainModel st tw) = length reports /\
    match history with
    | Returned losses =>
        lastTrainedAt (trainModel st tw) = Some (t_done tw) /\
        modelLoss (trainModel st tw) = last losses
    | Thrown _ =>
        lastTrainedAt (trainModel st tw) = lastTrainedAt st /\
        modelLoss (trainModel st tw) = modelLoss st
    end /\
    predictionCache (trainModel st tw) = predictionCache st /\
    predictedHotspots (trainModel st tw) = predictedHotspots st /\
    isTraining (trainModel st tw) = isTraining st /\
    trainingQueue (trainModel st tw) = trainingQueue st.
Proof.
  intros Hfind Hlen Hm Hrnd.
  destruct (trainModel_frame st tw) as [Hc Hh].
  destruct (trainModel_sched st tw) as [Ht Hq].
  exists (shuffleArray (t_random tw) (map (trainingSample reports (t_now tw)) reports)).
  destruct (fit m (shuffleArray (t_random tw)
                     (map (trainingSample reports (t_now tw)) reports)))
    as [m' history] eqn:Efit.
  exists m', history.
  split; [unfold shuffleArray; apply shuffleLoop_permutation|].
  split; [reflexivity|].
  assert (Hrun : trainModel st tw
                 = match history with
                   | Returned losses =>
                       setTrained (t_done tw) (last losses)
                         (setModel (Some m') (setSampleSize (length reports) st))
                   | Thrown _ => setModel (Some m') (setSampleSize (length reports) st)
                   end).
  { unfold trainModel. rewrite Hfind.
    replace (length reports <? 10)%nat with false
      by (symmetry; apply Nat.ltb_ge; exact Hlen).
    cbn [model setSampleSize]. rewrite Hm, Efit. reflexivity. }
  rewrite <- Hc, <- Hh, <- Ht, <- Hq. rewrite Hrun.
  destruct history as [losses|msg]; repeat split.
Qed.

End TrainingFacts.

(** ** Further properties of the model service: hotspots *)

Section SortFacts.
Context {A : Type} (before : A -> A -> bool).
Hypothesis before_total : forall x y, before x y = true \/ before y x = true.
Hypothesis before_trans :
  forall x y z, before x y = true -> before y z = true -> before x z = true.

Lemma sortBy_head (l : list A) :
  l <> [] ->
  exists h0 rest,
    sortBy before l = h0 :: rest /\ forall h, h ∈ l -> before h0 h = true.
Proof.
  induction l as [|x l IH]; [congruence|]. intros _.
  unfold sortBy. cbn [foldr]. fold (sortBy before l).
  destruct l as [|y l].
  - exists x, []. split; [reflexivity|]. intros h Hh.
    apply list_elem_of_singleton in Hh. subst.
    destruct (before_total x x); assumption.
  - destruct IH as [h0 [rest [Hs Hmax]]]; [discriminate|].
    rewrite Hs. cbn [insertSorted].
    destruct (before x h0) eqn:E.
    + exists x, (h0 :: rest). split; [reflexivity|]. intros h Hh.
      apply elem_of_cons in Hh. destruct Hh as [->|Hh].
      * destruct (before_total x x); assumption.
      * eapply before_trans; [exact E | now apply Hmax].
    + exists h0, (insertSorted before x rest). split; [reflexivity|]. intros h Hh.
      apply elem_of_cons in Hh. destruct Hh as [->|Hh]; [|now apply Hmax].
      destruct (before_total x h0) as [Hx|Hx]; [congruence | exact Hx].
Qed.

End SortFacts.

Section HotspotFacts.
Context `{Runtime} `{ReportStore} `{Regressor}.

Lemma uniqueLoop_app :
  forall hotspots seenKeys uniqueHotspots,
    uniqueLoop hotspots seenKeys uniqueHotspots
    = uniqueHotspots ++ uniqueLoop hotspots seenKeys [].
Proof.
  induction hotspots as [|x rest IH]; intros seen acc; cbn [uniqueLoop].
  - now rewrite app_nil_r.
  - case_bool_decide; [apply IH|].
    rewrite (IH _ (acc ++ [x])), (IH _ ([] ++ [x])). now rewrite <- app_assoc.
Qed.

Lemma uniqueLoop_length :
  forall hotspots seenKeys uniqueHotspots,
    (length (uniqueLoop hotspots seenKeys uniqueHotspots)
     <= length uniqueHotspots + length hotspots)%nat.
Proof.
  induction hotspots as [|x rest IH]; intros seen acc; cbn [uniqueLoop length]; [lia|].
  case_bool_decide.
  - specialize (IH seen acc). lia.
  - specialize (IH ({[keyOf 5 (h_lat x) (h_lng x)]} ∪ seen) (acc ++ [x])).
    rewrite length_app in IH. cbn in IH. lia.
Qed.

Lemma uniqueLoop_keys :
  forall hotspots (seenKeys : gset coordKey) uniqueHotspots,
    NoDup (keyOfHotspot <$> uniqueHotspots) ->
    (forall h, h ∈ uniqueHotspots -> keyOfHotspot h ∈ seenKeys) ->
    NoDup (keyOfHotspot <$> uniqueLoop hotspots seenKeys uniqueHotspots).
Proof.
  induction hotspots as [|x rest IH]; intros seen acc Hnd Hseen; cbn [uniqueLoop];
    [exact Hnd|].
  case_bool_decide as Hx; [now apply IH|].
  apply IH.
  - rewrite fmap_app. apply NoDup_app. split; [exact Hnd|]. split.
    + intros k Hk Hk'. cbn in Hk'. apply list_elem_of_singleton in Hk'. subst k.
      apply list_elem_of_fmap in Hk. destruct Hk as [h [Hkh Hh]].
      apply Hx. unfold keyOfHotspot in Hkh. rewrite Hkh. now apply Hseen.
    + cbn. apply NoDup_singleton.
  - intros h Hh. apply elem_of_app in Hh. destruct Hh as [Hh|Hh].
    + apply elem_of_union. right. now apply Hseen.
    + apply list_elem_of_singleton in Hh. subst. apply elem_of_union. left.
      now apply elem_of_singleton.
Qed.

(** X13: whatever the candidates, [identifyHotspots] selects at most 15 of
    them, all among the candidates, no two with the same coordinates to 5
    decimals, and the first selected is a candidate of the highest score. *)
Theorem selectHotspots_summary predictions :
  (length (selectHotspots predictions) <= 15)%nat /\
  NoDup (keyOfHotspot <$> selectHotspots predictions) /\
  (forall h, h ∈ selectHotspots predictions -> h ∈ predictions) /\
  (predictions <> [] ->
     exists h0 rest,
       selectHotspots predictions = h0 :: rest /\
       forall h, h ∈ predictions -> safetyScore h <= safetyScore h0).
Proof.
  split; [|split; [|split]].
  - unfold selectHotspots.
    match goal with
    | |- context [uniqueLoop ?l ∅ []] =>
        pose proof (uniqueLoop_length l ∅ []) as Hlen;
        assert (Hl : (length l <= 15)%nat)
    end.
    { rewrite !length_app, length_reverse. unfold sliceLast.
      rewrite !length_take, length_drop. lia. }
    cbn [length] in Hlen. lia.
  - unfold selectHotspots. apply uniqueLoop_keys; [constructor|].
    intros h Hh. now apply elem_of_nil in Hh.
  - apply selectHotspots_elem_of.
  - intros Hne.
    destruct (sortBy_head (fun a b : Hotspot => Qleb (safetyScore b) (safetyScore a)))
      with (l := predictions) as [h0 [rest [Hs Hmax]]].
    + intros x y. unfold Qleb. rewrite !Qle_bool_iff.
      destruct (Qlt_le_dec (safetyScore x) (safetyScore y)); [right|left]; lra.
    + intros x y z. unfold Qleb. rewrite !Qle_bool_iff. lra.
    + exact Hne.
    + unfold selectHotspots. rewrite Hs. cbn [take app uniqueLoop].
      rewrite bool_decide_eq_false_2 by apply not_elem_of_empty.
      rewrite uniqueLoop_app. cbn [app].
      eexists _, _. split; [reflexivity|].
      intros h Hh. apply Hmax in Hh. unfold Qleb in Hh. now apply Qle_bool_iff in Hh.
Qed.

Lemma NoDup_fmap_inj_on {B C : Type} (f : B -> C) (l : list B) x y :
  NoDup (f <$> l) -> x ∈ l -> y ∈ l -> f x = f y -> x = y.
Proof.
  induction l as [|a l IH]; intros Hnd Hx Hy Hf; [now apply elem_of_nil in Hx|].
  cbn in Hnd. apply NoDup_cons in Hnd. destruct Hnd as [Ha Hnd].
  apply elem_of_cons in Hx. apply elem_of_cons in Hy.
  destruct Hx as [->|Hx], Hy as [->|Hy]; auto.
  - exfalso. apply Ha. rewrite Hf. now apply list_elem_of_fmap_2.
  - exfalso. apply Ha. rewrite <- Hf. now apply list_elem_of_fmap_2.
Qed.

Lemma hotspotLoop_cells reports worlds :
  forall rest i (processed : gset coordKey) st predictions res st',
    NoDup (cellOf <$> predictions) ->
    (forall h, h ∈ predictions -> cellOf h ∈ processed) ->
    Forall (fun h => category h = categoryOf (safetyScore h)) predictions ->
    hotspotLoop reports rest worlds i processed st predictions = (Returned res, st') ->
    NoDup (cellOf <$> res) /\
    Forall (fun h => category h = categoryOf (safetyScore h)) res.
Proof.
  induction rest as [|r rest IH];
    intros i processed st predictions res st' Hnd Hseen Hcat Hrun;
    cbn [hotspotLoop] in Hrun.
  - inversion Hrun; subst. auto.
  - case_bool_decide as Hr; [eapply IH; eauto|].
    assert (Hseen' : forall h, h ∈ predictions ->
                       cellOf h ∈ ({[keyOf 3 (r_lat r) (r_lng r)]} ∪ processed : gset coordKey)).
    { intros h Hh. apply elem_of_union. right. now apply Hseen. }
    destruct (3 <=? length (within 2 (r_lat r) (r_lng r) reports))%nat;
      [|eapply IH; eauto].
    destruct (predictSafety st (worlds i) (r_lat r) (r_lng r)) as [[p|msg] st1];
      [|discriminate].
    eapply IH; [| | |exact Hrun].
    + rewrite fmap_app. apply NoDup_app. split; [exact Hnd|]. split.
      * intros k Hk Hk'. cbn in Hk'. apply list_elem_of_singleton in Hk'. subst k.
        apply list_elem_of_fmap in Hk. destruct Hk as [h [Hkh Hh]].
        apply Hr. unfold cellOf in Hkh at 1. cbn [h_lat h_lng] in Hkh.
        rewrite Hkh. now apply Hseen.
      * cbn. apply NoDup_singleton.
    + intros h Hh. apply elem_of_app in Hh. destruct Hh as [Hh|Hh]; [now apply Hseen'|].
      apply list_elem_of_singleton in Hh. subst. apply elem_of_union. left.
      now apply elem_of_singleton.
    + apply Forall_app. split; [exact Hcat|]. constructor; [reflexivity | constructor].
Qed.

(** X14: in the hotspot set a run of [identifyHotspots] computes there are
    at most 15 hotspots, no two in the same cell of 3 decimals and no two
    with the same coordinates to 5 decimals, and the category of each is
    the one of its score: safe above 0.7, unsafe below 0.4, moderate
    between. *)
Theorem computeHotspots_set st hw hs st' :
  computeHotspots st hw = (Some hs, st') ->
  (length hs <= 15)%nat /\
  NoDup (cellOf <$> hs) /\
  NoDup (keyOfHotspot <$> hs) /\
  Forall (fun h =>
            category h
            = if Qltb (7 # 10) (safetyScore h) then safe
              else if Qltb (safetyScore h) (4 # 10) then unsafe else moderate) hs.
Proof.
  intros Hrun. unfold computeHotspots in Hrun.
  destruct (findRecent (hs_db hw) 500%N) as [reports|msg]; [|discriminate].
  destruct ((length reports <? 20)%nat || negb (bool_decide (is_Some (model st))));
    [discriminate|].
  destruct (hotspotLoop reports reports (hs_worlds hw) 0 ∅ st []) as [[ps|msg] st1] eqn:E;
    [|discriminate].
  inversion Hrun; subst; clear Hrun.
  apply hotspotLoop_cells in E; [|constructor| |constructor].
  2:{ intros h Hh. now apply elem_of_nil in Hh. }
  destruct E as [Hcells Hcat].
  assert (Hlen : (length (selectHotspots ps) <= 15)%nat).
  { unfold selectHotspots.
    match goal with
    | |- context [uniqueLoop ?l ∅ []] =>
        pose proof (uniqueLoop_length l ∅ []) as Hlen;
        assert (Hl : (length l <= 15)%nat)
    end.
    { rewrite !length_app, length_reverse. unfold sliceLast.
      rewrite !length_take, length_drop. lia. }
    cbn [length] in Hlen. lia. }
  assert (Hkeys : NoDup (keyOfHotspot <$> selectHotspots ps)).
  { unfold selectHotspots. apply uniqueLoop_keys; [constructor|].
    intros h Hh. now apply elem_of_nil in Hh. }
  split; [exact Hlen|]. split; [|split; [exact Hkeys|]].
  - apply NoDup_fmap_2_strong; [|now apply NoDup_fmap_1 in Hkeys].
    intros x y Hx Hy Hxy. apply selectHotspots_elem_of in Hx, Hy.
    now apply (NoDup_fmap_inj_on cellOf ps).
  - apply Forall_forall. intros h Hh. apply selectHotspots_elem_of in Hh.
    rewrite Forall_forall in Hcat. exact (Hcat h Hh).
Qed.

Lemma category_partition (l : list Hotspot) :
  length l
  = (length (List.filter (hasCategory safe) l)
     + length (List.filter (hasCategory unsafe) l)
     + length (List.filter (hasCategory moderate) l))%nat.
Proof.
  induction l as [|h l IH]; [reflexivity|].
  cbn [List.filter]. unfold hasCategory in *.
  destruct (category h); repeat case_bool_decide; try congruence; cbn [length]; lia.
Qed.

(** X15: [getNearbyHotspots] answers hotspots of the service that are
    within the radius, with their number and the numbers of safe, unsafe and
    moderate ones, which add up to it; it recomputes the hotspots only when
    the service has none. *)
Theorem getNearbyHotspots_counts st hw lat lng radiusKm :
  let answer := fst (getNearbyHotspots st hw lat lng radiusKm) in
  let st' := snd (getNearbyHotspots st hw lat lng radiusKm) in
  totalCount answer = length (nh_hotspots answer) /\
  totalCount answer = (safeCount answer + unsafeCount answer + moderateCount answer)%nat /\
  (forall h,
      h ∈ nh_hotspots answer <->
      h ∈ predictedHotspots st' /\
      calculateDistance lat lng (h_lat h) (h_lng h) <= radiusKm) /\
  (predictedHotspots st <> [] -> st' = st) /\
  (predictedHotspots st = [] -> st' = identifyHotspots st hw).
Proof.
  cbn zeta. unfold getNearbyHotspots.
  cbn [fst snd totalCount safeCount unsafeCount moderateCount nh_hotspots].
  split; [reflexivity|]. split; [apply category_partition|]. split; [|split].
  - intros h. rewrite list_elem_of_In, filter_In, <- list_elem_of_In.
    unfold Qleb. now rewrite Qle_bool_iff.
  - intros Hne. destruct (predictedHotspots st); [congruence | reflexivity].
  - intros ->. reflexivity.
Qed.

End HotspotFacts.

(** ** Further properties of the model service: persistence and status *)

Section LifecycleFacts.
Context `{Runtime} `{ReportStore} `{Regressor}.

(** X16: what [saveModel] writes, [initModel] reads back: after a save that
    returns, of a service with a model and a loss, a start-up from the
    directory restores the model, the loss, the time of the training and the
    number of samples, and schedules no training.  A save of a service with
    no loss yet writes the model and leaves the metadata that were there, and
    a save of a service with no model throws. *)
Theorem saveModel_initModel_round_trip st d sw :
  (forall m loss d',
      model st = Some m -> modelLoss st = Some loss ->
      saveModel st d sw = Returned d' ->
      forall st0 now,
        snd (initModel st0 (loadDisk d') now) = false /\
        model (fst (initModel st0 (loadDisk d') now)) = Some m /\
        modelLoss (fst (initModel st0 (loadDisk d') now)) = Some loss /\
        lastTrainedAt (fst (initModel st0 (loadDisk d') now)) = lastTrainedAt st /\
        lastSampleSize (fst (initModel st0 (loadDisk d') now)) = lastSampleSize st) /\
  (forall m d',
      model st = Some m -> modelLoss st = None ->
      saveModel st d sw = Returned d' ->
      d_model d' = Some m /\ d_metadata d' = d_metadata d) /\
  (model st = None -> exists msg, saveModel st d sw = Thrown msg).
Proof.
  unfold saveModel. split; [|split].
  - intros m loss d' Hm Hl Hsave st0 now. rewrite Hm, Hl in Hsave.
    destruct (mkdir_ok sw); cbn [negb] in Hsave; [|discriminate].
    destruct (save_ok sw); cbn [negb] in Hsave; [|discriminate].
    destruct (writeFile_ok sw); cbn [negb obind] in Hsave; [|discriminate].
    destruct (readdir_ok sw); cbn [negb] in Hsave; [|discriminate].
    inversion Hsave; subst. cbn. auto.
  - intros m d' Hm Hl Hsave. rewrite Hm, Hl in Hsave.
    destruct (mkdir_ok sw); cbn [negb] in Hsave; [|discriminate].
    destruct (save_ok sw); cbn [negb obind] in Hsave; [|discriminate].
    destruct (readdir_ok sw); cbn [negb] in Hsave; [|discriminate].
    inversion Hsave; subst. auto.
  - intros Hm. rewrite Hm. destruct (mkdir_ok sw); cbn [negb]; eauto.
Qed.

Lemma serviceSound_setCache c st :
  serviceSound st ->
  (forall key e, c !! key = Some e -> scoreInRange (cachedPrediction e)) ->
  serviceSound (setCache c st).
Proof. intros [_ Hh] Hc. split; [exact Hc | exact Hh]. Qed.









Lemma trainModel_model st tw : is_Some (model st) -> is_Some (model (trainModel st tw)).
Proof.
  intros Hm. unfold trainModel.
  destruct (findRecent (t_db tw) 10000%N) as [reports|]; [|exact Hm].
  destruct (length reports <? 10)%nat; [exact Hm|].
  cbn [model setSampleSize].
  destruct (model st) as [m|]; [|destruct Hm as [x Hx]; discriminate].
  destruct (fit m _) as [m' [losses|msg]]; cbn; eauto.
Qed.

Lemma identifyHotspots_model st hw : model (identifyHotspots st hw) = model st.
Proof.
  unfold identifyHotspots. destruct (computeHotspots_frame st hw) as [c Hc].
  destruct (computeHotspots st hw) as [[hs|] st']; cbn [snd] in Hc; subst st'; reflexivity.
Qed.

Lemma scheduleTraining_model st now : model (fst (scheduleTraining st now)) = model st.
Proof.
  unfold scheduleTraining, processTrainingQueue_start.
  destruct (isTraining st); [reflexivity|].
  cbn [isTraining trainingQueue setSched orb].
  destruct (length (trainingQueue st ++ [now]) =? 0)%nat; reflexivity.
Qed.

Lemma step_model s e s' :
  step s e = Some s' ->
  (is_Some (model (svc s)) -> is_Some (model (svc s'))) /\
  (forall disk now, e = EvInit disk now -> is_Some (model (svc s'))).
Proof.
  intros Hstep. destruct e as [disk now|now|w lat lng|now|tw hw|];
    cbn [step] in Hstep.
  - assert (Hready : is_Some (model (svc s'))).
    { unfold initModel in Hstep. destruct disk as [[[m [md|]]|]|msg].
      - inversion Hstep; subst. cbn. eauto.
      - inversion Hstep; subst. cbn. eauto.
      - pose proof (scheduleTraining_model (setModel (Some createModel) (svc s)) now) as E.
        destruct (scheduleTraining _ now) as [st started]. inversion Hstep; subst.
        cbn [svc fst] in *. rewrite E. cbn. eauto.
      - pose proof (scheduleTraining_model (setModel (Some createModel) (svc s)) now) as E.
        destruct (scheduleTraining _ now) as [st started]. inversion Hstep; subst.
        cbn [svc fst] in *. rewrite E. cbn. eauto. }
    split; [intros _; exact Hready | intros _ _ _; exact Hready].
  - split; [|discriminate]. intros Hm.
    pose proof (scheduleTraining_model (svc s) now) as E.
    destruct (scheduleTraining (svc s) now) as [st started]. inversion Hstep; subst.
    cbn [svc fst] in *. now rewrite E.
  - split; [|discriminate]. intros Hm. inversion Hstep; subst. cbn [svc].
    destruct (predictSafety_frame (svc s) w lat lng) as [c ->]. exact Hm.
  - split; [|discriminate]. intros Hm. now inversion Hstep; subst.
  - split; [|discriminate]. intros Hm.
    destruct (activePasses s); [discriminate|].
    unfold processTrainingQueue_finally in Hstep. inversion Hstep; subst.
    cbn [svc model setSched]. unfold trainingPass. rewrite identifyHotspots_model.
    now apply trainModel_model.
  - split; [|discriminate]. intros Hm.
    destruct (pendingTimers s); [discriminate|].
    unfold processTrainingQueue_start in Hstep.
    destruct (isTraining (svc s) || (length (trainingQueue (svc s)) =? 0)%nat);
      inversion Hstep; subst; exact Hm.
Qed.

Lemma run_model events :
  forall s s', run s events = Some s' ->
    is_Some (model (svc s)) -> is_Some (model (svc s')).
Proof.
  induction events as [|e events IH]; intros s s' Hrun Hm; cbn [run] in Hrun.
  - now inversion Hrun; subst.
  - destruct (step s e) as [s1|] eqn:Hstep; [|discriminate].
    eapply IH; [exact Hrun|]. now apply (step_model s e s1 Hstep).
Qed.

(** X18: [initModel] always leaves the service with a model, loaded or
    newly created, whatever the directory holds and whether reading it
    fails; and once the service has a model no later event takes it away:
    [getStatus] reports [isReady] ever after. *)
Theorem model_is_never_lost s disk now events s1 s2 :
  step s (EvInit disk now) = Some s1 ->
  run s1 events = Some s2 ->
  is_Some (model (svc s1)) /\
  is_Some (model (svc s2)) /\
  isReady (getStatus (svc s2)) = true.
Proof.
  intros Hinit Hrun.
  assert (Hm1 : is_Some (model (svc s1)))
    by (apply (step_model s _ s1 Hinit) with disk now; reflexivity).
  assert (Hm2 : is_Some (model (svc s2))) by (eapply run_model; eauto).
  split; [exact Hm1|]. split; [exact Hm2|].
  cbn [isReady getStatus]. now apply bool_decide_eq_true.
Qed.

(** X19: whenever the service is observed, [getStatus] reports an empty
    queue, and reports a training exactly when a pass is active; it shows
    the first 10 hotspots at most; and it reports the loss as not trained
    yet when there is no loss and also when the loss is 0. *)
Theorem getStatus_of_reachable events s :
  run initialSystem events = Some s ->
  queueLength (getStatus (svc s)) = 0%nat /\
  (status_isTraining (getStatus (svc s)) = true <-> activePasses s = 1%nat) /\
  status_predictedHotspots (getStatus (svc s)) = take 10 (predictedHotspots (svc s)) /\
  (length (status_predictedHotspots (getStatus (svc s))) <= 10)%nat /\
  modelMSE (getStatus (svc s)) = status_modelLoss (getStatus (svc s)) /\
  (status_modelLoss (getStatus (svc s)) = NotTrainedYet <->
   modelLoss (svc s) = None \/ exists l, modelLoss (svc s) = Some l /\ l == 0).
Proof.
  intros Hrun.
  destruct (run_singleFlight events _ _ initialSystem_singleFlight Hrun)
    as [Hact [Hq Htim]].
  cbn [getStatus queueLength status_isTraining status_predictedHotspots modelMSE
       status_modelLoss].
  split; [now rewrite Hq|].
  split; [rewrite Hact; destruct (isTraining (svc s)); cbn; split; auto; discriminate|].
  split; [reflexivity|]. split; [rewrite length_take; lia|]. split; [reflexivity|].
  unfold lossTextOf. destruct (modelLoss (svc s)) as [l|].
  - destruct (Qeq_bool l 0) eqn:E.
    + split; [|reflexivity]. intros _. right. exists l. split; [reflexivity|].
      now apply Qeq_bool_iff.
    + split; [discriminate|]. intros [Hn|[l' [Hl Hz]]]; [discriminate|].
      inversion Hl; subst. apply Qeq_bool_iff in Hz. congruence.
  - split; [now left | reflexivity].
Qed.

End LifecycleFacts.

(** ** Further properties of the client *)

Section ClientFacts.
Context `{Runtime}.



End ClientFacts.

Section ConfidenceFacts.
Context `{Runtime} `{ReportStore} `{Regressor}.


End ConfidenceFacts.

(** *** The model service on the examples *)

#[local] Existing Instance coarseRuntime.
#[local] Existing Instance exampleStore.
#[local] Existing Instance constantRegressor.

Lemma emptyCache_holds (P : Prediction -> Prop) : cacheHolds P loadedService.
Proof.
  intros key e Hl. cbn [predictionCache loadedService] in Hl.
  now rewrite lookup_empty in Hl.
Qed.

Lemma earlierReports_notPostdated : notPostdated (worldAt earlierReports noon (1 # 2)) 1 1.
Proof.
  intros reports Hfind. vm_compute in Hfind. inversion Hfind; subst; clear Hfind.
  repeat constructor; vm_compute; discriminate.
Qed.

(** A prediction at (1, 1) from three reports of the days before. *)
Lemma predictSafety_in_range_example :
  exists p st',
    predictSafety loadedService (worldAt earlierReports noon (1 # 2)) 1 1
      = (Returned p, st') /\
    scoreInRange p /\ confidenceInRange p.
Proof.
  destruct (predictSafety_in_range loadedService (worldAt earlierReports noon (1 # 2)) 1 1
              (emptyCache_holds scoreInRange))
    as [p [st' [Hrun [Hscore [_ [Hconf _]]]]]].
  exists p, st'. split; [exact Hrun|]. split; [exact Hscore|].
  exact (proj1 (Hconf (emptyCache_holds confidenceInRange) earlierReports_notPostdated)).
Defined.

(** C3, where the code departs from it: the recency factor is not capped at
    1 (its comment gives it the range 0.5 to 1), so with ten reports nearby
    dated thirty days after the call the confidence is 1.3, above 1. *)
Lemma postdated_reports_confidence_above_one :
  exists p st',
    predictSafety loadedService (worldAt postdatedReports noon (1 # 2)) 1 1
      = (Returned p, st') /\
    confidence p == 13 # 10 /\
    ~ confidence p <= 1.
Proof.
  eexists _, _. split; [reflexivity|]. split; vm_compute; [reflexivity|].
  intros Hle. apply Hle. reflexivity.
Qed.

(** A second call at (1, 1) one minute after the first, the store having
    lost its reports in between. *)
Lemma cached_prediction_is_repeated_witness :
  fst (predictSafety
         (snd (predictSafety loadedService (worldAt earlierReports noon (1 # 2)) 1 1))
         (worldAt [] (noon + 60000) 0) 1 1)
  = fst (predictSafety loadedService (worldAt earlierReports noon (1 # 2)) 1 1).
Proof.
  pose (w1 := worldAt earlierReports noon (1 # 2)).
  pose proof (predictSafety_miss loadedService w1 1 1 (or_intror eq_refl)) as Hfirst.
  destruct (cached_prediction_is_repeated loadedService w1 1 1 _ _ Hfirst) as [Hsame _].
  fold w1. rewrite Hfirst. cbn [fst snd].
  apply Hsame with (m2 := 5 # 10); try reflexivity.
  intros e He. unfold cachePut, setCache in He. cbn [predictionCache] in He.
  rewrite lookup_insert_eq in He. inversion He; subst; clear He.
  cbn [c_timestamp]. vm_compute. reflexivity.
Defined.

(** C4 fails as stated: before a model is loaded two calls for the same
    coordinate, at the same clock reading, return different scores. *)
Lemma no_model_predictions_differ :
  exists p1 st1 p2 st2,
    predictSafety newService (worldAt [] noon 0) (1 # 100) (1 # 100) = (Returned p1, st1) /\
    predictSafety st1 (worldAt [] noon (1 # 2)) (1 # 100) (1 # 100) = (Returned p2, st2) /\
    score p1 == 76 # 100 /\ score p2 == 81 # 100 /\
    ~ score p1 == score p2.
Proof.
  eexists _, _, _, _. split; [reflexivity|]. split; [reflexivity|].
  split; [vm_compute; reflexivity|]. split; [vm_compute; reflexivity|].
  vm_compute. discriminate.
Qed.

(** [scheduleTraining()] on the service with a cached prediction, idle and
    in the middle of a pass. *)
Lemma scheduleTraining_clears_cache_when_idle_witness :
  predictionCache (fst (scheduleTraining (cachedService false) (noon + 1000))) = ∅ /\
  scheduleTraining (cachedService true) (noon + 1000) = (cachedService true, false).
Proof.
  split.
  - destruct (scheduleTraining_clears_cache_when_idle (cachedService false) (noon + 1000))
      as [Hidle _].
    destruct (Hidle eq_refl) as [_ [_ [_ [Hempty _]]]]. exact Hempty.
  - destruct (scheduleTraining_clears_cache_when_idle (cachedService true) (noon + 1000))
      as [_ Hbusy].
    exact (Hbusy eq_refl).
Defined.

(** C5 fails as stated: a [scheduleTraining()] made during a training pass
    queues no trigger and leaves the cache as it is; the prediction that
    follows is the one cached before. *)
Lemma scheduleTraining_during_pass_keeps_cache :
  isTraining (cachedService true) = true /\
  trainingQueue (fst (scheduleTraining (cachedService true) (noon + 1000))) = [] /\
  predictionCache (fst (scheduleTraining (cachedService true) (noon + 1000)))
    !! keyOf 5 1 1 = Some staleEntry /\
  fst (predictSafety (fst (scheduleTraining (cachedService true) (noon + 1000)))
         (worldAt earlierReports (noon + 2000) (1 # 2)) 1 1)
  = Returned {| score := 3 # 10; confidence := 5 # 10 |}.
Proof. repeat split; vm_compute; reflexivity. Qed.

(** The service after start-up and two submissions during the first pass. *)
Lemma at_most_one_training_pass_witness :
  match run initialSystem submissionsDuringTraining with
  | Some s =>
      (activePasses s <= 1)%nat /\ isTraining (svc s) = true /\
      trainingQueue (svc s) = [] /\ pendingTimers s = 0%nat
  | None => False
  end.
Proof.
  destruct (run initialSystem submissionsDuringTraining) as [s|] eqn:E.
  - destruct (at_most_one_training_pass submissionsDuringTraining s E)
      as [Hle [Hiff [Hq [Ht _]]]].
    split; [exact Hle|]. split; [|split; [exact Hq | exact Ht]].
    apply Hiff. vm_compute in E. inversion E. reflexivity.
  - vm_compute in E. discriminate.
Defined.

(** C6 fails as stated: the two submissions made while the first pass runs
    queue nothing, and when that pass ends no timer is armed and no pass is
    active: no later pass takes them. *)
Lemma triggers_during_pass_are_dropped :
  match run initialSystem submissionsDuringTraining with
  | Some s1 =>
      activePasses s1 = 1%nat /\ trainingQueue (svc s1) = [] /\
      match step s1 (EvPassEnds (exampleTrainWorld earlierReports)
                                (exampleHotspotWorld earlierReports)) with
      | Some s2 =>
          activePasses s2 = 0%nat /\ pendingTimers s2 = 0%nat /\
          trainingQueue (svc s2) = [] /\ isTraining (svc s2) = false /\
          step s2 EvTimer = None
      | None => False
      end
  | None => False
  end.
Proof. vm_compute. repeat split. Qed.

(** [trainModel] over a store of three reports. *)
Lemma trainModel_needs_ten_reports_witness :
  trainModel loadedService (exampleTrainWorld earlierReports) = loadedService.
Proof.
  destruct (trainModel_needs_ten_reports loadedService (exampleTrainWorld earlierReports)
              earlierReports eq_refl) as [Hsame _].
  - vm_compute. lia.
  - exact Hsame.
Defined.

Lemma sparseReports_sparse : sparse sparseReports.
Proof. apply sparse_check. vm_compute. reflexivity. Qed.

(** [identifyHotspots] over twenty reports none of which has a neighbour. *)
Lemma hotspots_need_three_reports_witness :
  fst (computeHotspots loadedService (exampleHotspotWorld sparseReports)) = Some [].
Proof.
  destruct (hotspots_need_three_reports loadedService (exampleHotspotWorld sparseReports)
              sparseReports eq_refl) as [_ [_ Hsparse]].
  destruct (Hsparse sparseReports_sparse) as [Hnil _].
  destruct (computeHotspots loadedService (exampleHotspotWorld sparseReports))
    as [[hs|] st'] eqn:E.
  - rewrite (Hnil hs st' eq_refl). reflexivity.
  - vm_compute in E. discriminate.
Defined.

(** *** The further properties on the examples *)

Lemma halfDraws_unit : unitDraws (fun _ => 1 # 2).
Proof. intros k. split; [discriminate | reflexivity]. Qed.

Lemma zeroDraws_unit : unitDraws (fun _ => 0).
Proof. intros k. split; [discriminate | reflexivity]. Qed.

Lemma clampedRuntime_bounded : boundedTrig (H := clampedRuntime).
Proof.
  intros x. split.
  - cbn. split; [apply Q.le_max_l|].
    apply Q.max_lub; [discriminate | apply Q.le_min_l].
  - cbn. split; discriminate.
Qed.

Lemma coarseRuntime_haversine : haversineLaws (H := coarseRuntime).
Proof.
  unfold haversineLaws. cbn. repeat split; auto; reflexivity.
Qed.

(** Four elements shuffled with every random number 0.5. *)
Lemma shuffleArray_permutes_witness :
  shuffleArray (fun _ => 1 # 2) [1; 2; 3; 4]%nat ≡ₚ [1; 2; 3; 4]%nat.
Proof.
  exact (proj1 (shuffleArray_permutes (fun _ => 1 # 2) [1; 2; 3; 4]%nat halfDraws_unit)).
Defined.

(** The distance between (1, 2) and (3, 4), both ways. *)
Lemma calculateDistance_symmetric_witness :
  calculateDistance 1 2 3 4 == calculateDistance 3 4 1 2 /\
  calculateDistance 1 2 1 2 == 0.
Proof. exact (calculateDistance_symmetric 1 2 3 4 coarseRuntime_haversine). Defined.

(** The three midpoints from (0, 0) to (1, 1). *)
Lemma getMidPoints_bow_witness :
  length (getMidPoints (H := clampedRuntime) 0 0 1 1 3) = 3%nat.
Proof.
  exact (proj1 (getMidPoints_bow (H := clampedRuntime) 0 0 1 1 3 clampedRuntime_bounded)).
Defined.

(** The eight candidate points around (1, 1). *)
Lemma generateRoutePoints_near_origin_witness :
  length (generateRoutePoints (H := clampedRuntime) (fun _ => 1 # 2) 1 1 8 1) = 8%nat.
Proof.
  refine (proj1 (generateRoutePoints_near_origin (H := clampedRuntime)
                   (fun _ => 1 # 2) 1 1 8 1 halfDraws_unit clampedRuntime_bounded _ _)).
  - reflexivity.
  - discriminate.
Defined.

(** The routes from (1, 1) when the store finds nothing. *)
Lemma getSafeRoutes_legs_witness :
  exists routes,
    getSafeRoutes quietWorld (ParsedObject (CNum 1) (CNum 1))
      = Returned {| status := 200; json := RoutesBody routes |} /\
    forall k r,
      routes !! k = Some r ->
      start r = {| p_lat := 1; p_lng := 1 |} /\ incidents r = 0%nat.
Proof.
  destruct (getSafeRoutes_records quietWorld 1 1 one_is_not_zero one_is_not_zero
              quietWorld_answers) as [routes [_ [Hresp _]]].
  exists routes. split; [exact Hresp|]. intros k r Hk.
  destruct (getSafeRoutes_legs quietWorld 1 1 routes one_is_not_zero one_is_not_zero Hresp)
    as [_ Hlegs].
  destruct (Hlegs k r Hk) as [Hs [_ Hi]]. split; [exact Hs|].
  rewrite Hi. reflexivity.
Defined.

(** The reports around (1, 1) from a store that answers three reports. *)
Lemma getReports_passes_store_answer_witness :
  getReports (fun _ _ _ => Returned (Some earlierReports))
             (ParsedObject (CNum 1) (CNum 1)) None
  = Returned {| status := 200; json := ReportsBody (Some earlierReports) |}.
Proof.
  destruct (getReports_passes_store_answer
              (fun _ _ _ => Returned (Some earlierReports)) 1 1 None
              one_is_not_zero one_is_not_zero) as [Hok _].
  exact (Hok (Some earlierReports) eq_refl).
Defined.

(** A cleanup at noon plus ten minutes of the service with an entry of noon,
    and a prediction after it. *)
Lemma cleanupCache_is_transparent_witness :
  predictionCache (cleanupCache (cachedService false) (noon + 600000)) !! keyOf 5 1 1 = None /\
  fst (predictSafety (cleanupCache (cachedService false) (noon + 600000))
         (worldAt earlierReports (noon + 700000) (1 # 2)) 1 1)
  = fst (predictSafety (cachedService false)
           (worldAt earlierReports (noon + 700000) (1 # 2)) 1 1).
Proof.
  destruct (cleanupCache_is_transparent (cachedService false) (noon + 600000))
    as [Hlookup Hsame].
  split.
  - destruct (predictionCache (cleanupCache (cachedService false) (noon + 600000))
                !! keyOf 5 1 1) as [e|] eqn:E; [|reflexivity].
    apply Hlookup in E. destruct E as [E Hyoung].
    vm_compute in E. inversion E; subst. vm_compute in Hyoung. now destruct Hyoung.
  - apply Hsame. vm_compute. discriminate.
Defined.

(** The heuristic score at (1, 1) at noon and at midnight. *)
Lemma getHeuristicSafety_by_hour_witness :
  25 # 100 <= getHeuristicSafety (H := clampedRuntime) (worldAt [] noon (1 # 2)) 1 1 /\
  getHeuristicSafety (H := clampedRuntime) (worldAt [] 0 (1 # 2)) 1 1 <= 75 # 100.
Proof.
  split.
  - refine (proj1 (getHeuristicSafety_by_hour (H := clampedRuntime)
                     (worldAt [] noon (1 # 2)) 1 1 clampedRuntime_bounded _ _));
      [discriminate | reflexivity].
  - refine (proj2 (proj2 (getHeuristicSafety_by_hour (H := clampedRuntime)
                     (worldAt [] 0 (1 # 2)) 1 1 clampedRuntime_bounded _ _)) eq_refl);
      [discriminate | reflexivity].
Defined.

(** The sample of a report of the day before. *)
Lemma trainingSample_range_witness :
  5 # 100 <= snd (trainingSample earlierReports noon
                    (reportAt 1 1 "safe" 1 (noon - oneDay))) /\
  snd (trainingSample earlierReports noon (reportAt 1 1 "safe" 1 (noon - oneDay)))
  <= 9 # 10.
Proof.
  refine (proj2 (trainingSample_range earlierReports noon
                   (reportAt 1 1 "safe" 1 (noon - oneDay)) _ _)).
  - discriminate.
  - vm_compute. discriminate.
Defined.

(** A training over ten reports. *)
Lemma trainModel_outcomes_witness :
  lastSampleSize (trainModel loadedService (exampleTrainWorld postdatedReports)) = 10%nat /\
  lastTrainedAt (trainModel loadedService (exampleTrainWorld postdatedReports))
  = Some (noon + 1000)%Z.
Proof.
  destruct (trainModel_outcomes loadedService (exampleTrainWorld postdatedReports)
              postdatedReports (5 # 10) eq_refl) as [data [m' [history Hall]]].
  - vm_compute. lia.
  - reflexivity.
  - exact zeroDraws_unit.
  - destruct Hall as [_ [Hfit [_ [Hsize [Hhist _]]]]].
    split; [exact Hsize|].
    cbn in Hfit. inversion Hfit; subst. exact (proj1 Hhist).
Defined.

(** Two candidates, of scores 0.8 and 0.3. *)
Lemma selectHotspots_summary_witness :
  exists h0 rest,
    selectHotspots
      [ {| h_lat := 1; h_lng := 1; safetyScore := 3 # 10; h_confidence := 5 # 10;
           category := unsafe; reportCount := 4 |};
        {| h_lat := 2; h_lng := 2; safetyScore := 8 # 10; h_confidence := 5 # 10;
           category := safe; reportCount := 3 |} ]
    = h0 :: rest /\ safetyScore h0 == 8 # 10.
Proof.
  destruct (selectHotspots_summary
      [ {| h_lat := 1; h_lng := 1; safetyScore := 3 # 10; h_confidence := 5 # 10;
           category := unsafe; reportCount := 4 |};
        {| h_lat := 2; h_lng := 2; safetyScore := 8 # 10; h_confidence := 5 # 10;
           category := safe; reportCount := 3 |} ]) as [_ [_ [_ Hhead]]].
  destruct Hhead as [h0 [rest [Hsel _]]]; [discriminate|].
  exists h0, rest. split; [exact Hsel|].
  vm_compute in Hsel. inversion Hsel; subst. reflexivity.
Defined.

(** The hotspots of twenty reports at one place. *)
Lemma computeHotspots_set_witness :
  exists hs,
    fst (computeHotspots loadedService (exampleHotspotWorld clusteredReports)) = Some hs /\
    length hs = 1%nat /\
    NoDup (cellOf <$> hs).
Proof.
  destruct (computeHotspots loadedService (exampleHotspotWorld clusteredReports))
    as [[hs|] st'] eqn:E.
  - exists hs. split; [reflexivity|].
    destruct (computeHotspots_set loadedService (exampleHotspotWorld clusteredReports)
                hs st' E) as [_ [Hcells _]].
    split; [|exact Hcells]. vm_compute in E. inversion E; subst. reflexivity.
  - vm_compute in E. discriminate.
Defined.

(** The hotspots within 2 km of (1, 1), asked of a service that has none
    yet. *)
Lemma getNearbyHotspots_counts_witness :
  totalCount (fst (getNearbyHotspots loadedService (exampleHotspotWorld clusteredReports)
                     1 1 2)) = 1%nat /\
  snd (getNearbyHotspots loadedService (exampleHotspotWorld clusteredReports) 1 1 2)
  = identifyHotspots loadedService (exampleHotspotWorld clusteredReports).
Proof.
  destruct (getNearbyHotspots_counts loadedService (exampleHotspotWorld clusteredReports)
              1 1 2) as [Hlen [_ [_ [_ Hnone]]]].
  split; [|exact (Hnone eq_refl)].
  rewrite Hlen. vm_compute. reflexivity.
Defined.

(** The trained service saved to an empty directory and started again. *)
Lemma saveModel_initModel_round_trip_witness :
  exists d',
    saveModel trainedService emptyDisk everyFileOperationSucceeds = Returned d' /\
    modelLoss (fst (initModel newService (loadDisk d') (noon + oneDay))) = Some (1 # 100) /\
    lastTrainedAt (fst (initModel newService (loadDisk d') (noon + oneDay))) = Some noon.
Proof.
  eexists. split; [reflexivity|].
  destruct (saveModel_initModel_round_trip trainedService emptyDisk
              everyFileOperationSucceeds) as [Hround _].
  destruct (Hround (5 # 10) (1 # 100) _ eq_refl eq_refl eq_refl newService (noon + oneDay)%Z)
    as [_ [_ [Hloss [Htime _]]]].
  split; [exact Hloss | exact Htime].
Defined.


Lemma model_is_never_lost_witness :
  match step initialSystem (EvInit (Thrown "EACCES") noon) with
  | Some s1 =>
      match run s1 (tail oneDayOfService) with
      | Some s2 => isReady (getStatus (svc s2)) = true
      | None => False
      end
  | None => False
  end.
Proof.
  destruct (step initialSystem (EvInit (Thrown "EACCES") noon)) as [s1|] eqn:E1;
    [|vm_compute in E1; discriminate].
  destruct (run s1 (tail oneDayOfService)) as [s2|] eqn:E2.
  - exact (proj2 (proj2 (model_is_never_lost initialSystem (Thrown "EACCES") noon
                           (tail oneDayOfService) s1 s2 E1 E2))).
  - vm_compute in E1. inversion E1; subst. vm_compute in E2. discriminate.
Defined.

Lemma getStatus_of_reachable_witness :
  match run initialSystem oneDayOfService with
  | Some s =>
      queueLength (getStatus (svc s)) = 0%nat /\
      status_isTraining (getStatus (svc s)) = true
  | None => False
  end.
Proof.
  destruct (run initialSystem oneDayOfService) as [s|] eqn:E.
  - destruct (getStatus_of_reachable oneDayOfService s E) as [Hq [Ht _]].
    split; [exact Hq|]. apply Ht. vm_compute in E. inversion E; subst. reflexivity.
  - vm_compute in E. discriminate.
Defined.

